(** * Carrion language server: analysis engine, features, formatter, package loader

    A shallow embedding of the Go sources of the language server
    ([internal/analyzer]: analyzer.go, features.go, the formatter and the
    Bifrost package integration) together with the properties that the
    specification states about them.

    Conventions of the embedding.
    - Go strings are byte strings: [string] (a list of [ascii] bytes); [len]
      is [String.length].
    - Go maps with string keys are [gmap string _].  Go leaves the iteration
      order of a map unspecified.  Where the code ranges over a string-keyed
      table the embedding ranges over [map_to_list] and the theorems only
      state facts that do not depend on the order.  Where the order decides
      the produced text (the formatter's hash literals) the order is an
      explicit argument.
    - Go [int] is 64 bits wide; where the code does arithmetic on it the
      wrap-around is written out ([wrap64]).
    - Protocol positions and the tab size are unsigned in the protocol and
      are [nat] here.
    - The methods of the analyzer that change or read the document store
      are embedded as one goroutine runs them, with the analyzer's
      read-write mutex in the state: a call returns, or it waits for ever
      for a lock that its own goroutine holds ([Blocks]).
    - The lexer, the parser, the evaluator and the [ast] and [token]
      packages belong to the language implementation, not to this
      repository.  The syntax tree is modelled from the way the sources
      use it; the lexer, the parser and the enumeration of the interpreter's
      environment are the fields of a record [Language] that the functions
      calling them take as an argument. *)

From Stdlib Require Import ZArith String Ascii List Lia Permutation.
From stdpp Require Import gmap strings list fin_maps pretty.

#[local] Set Warnings "-register-all".

Open Scope string_scope.
Open Scope Z_scope.

(** [++] is list concatenation throughout; strings are appended with [+:+]. *)
#[local] Disable Notation "_ ++ _" : string_scope.

(* ===================================================================== *)
(** ** The parts of Go's [strings] package that the sources call *)
(* ===================================================================== *)

Module GoStrings.

Fixpoint HasPrefix (s prefix : string) : bool :=
  match prefix with
  | EmptyString => true
  | String p prefix' =>
      match s with
      | EmptyString => false
      | String c s' => if Ascii.eqb c p then HasPrefix s' prefix' else false
      end
  end.

Definition HasSuffix (s suffix : string) : bool :=
  HasPrefix (String.rev s) (String.rev suffix).

(** [s[:n]] for [n <= len(s)] *)
Definition sliceTo (s : string) (n : nat) : string := substring 0 n s.

Definition TrimSuffix (s suffix : string) : string :=
  if HasSuffix s suffix
  then sliceTo s (String.length s - String.length suffix)
  else s.

Fixpoint Contains (s substr : string) : bool :=
  HasPrefix s substr ||
  match s with
  | EmptyString => false
  | String _ s' => Contains s' substr
  end.

Fixpoint inCutset (c : ascii) (cutset : string) : bool :=
  match cutset with
  | EmptyString => false
  | String d cutset' => Ascii.eqb c d || inCutset c cutset'
  end.

Fixpoint dropLeading (p : ascii -> bool) (s : string) : string :=
  match s with
  | EmptyString => EmptyString
  | String c s' => if p c then dropLeading p s' else s
  end.

Fixpoint takeLeading (p : ascii -> bool) (s : string) : string :=
  match s with
  | EmptyString => EmptyString
  | String c s' => if p c then String c (takeLeading p s') else EmptyString
  end.

Definition TrimRight (s cutset : string) : string :=
  String.rev (dropLeading (fun c => inCutset c cutset) (String.rev s)).

Fixpoint Repeat (s : string) (count : nat) : string :=
  match count with
  | O => EmptyString
  | S n => s +:+ Repeat s n
  end.

Fixpoint Join (elems : list string) (sep : string) : string :=
  match elems with
  | [] => EmptyString
  | [e] => e
  | e :: rest => e +:+ sep +:+ Join rest sep
  end.

(** [strings.Split(s, sep)] for a separator of one byte: the fields
    between the occurrences of [sep]; never the empty list. *)
Fixpoint splitFrom (sep : ascii) (field : string) (s : string) : list string :=
  match s with
  | EmptyString => [String.rev field]
  | String c s' =>
      if Ascii.eqb c sep
      then String.rev field :: splitFrom sep EmptyString s'
      else splitFrom sep (String c field) s'
  end.

Definition Split (s : string) (sep : ascii) : list string :=
  splitFrom sep EmptyString s.

Definition lowerByte (c : ascii) : ascii :=
  let n := nat_of_ascii c in
  if ((65 <=? n) && (n <=? 90))%nat then ascii_of_nat (n + 32) else c.

(** [strings.ToLower] on ASCII text (the only text it is applied to) *)
Fixpoint ToLower (s : string) : string :=
  match s with
  | EmptyString => EmptyString
  | String c s' => String (lowerByte c) (ToLower s')
  end.

(** the last element of a slice that is never empty *)
Definition lastField (parts : list string) : string :=
  List.last parts EmptyString.

End GoStrings.

Import GoStrings.

Definition newline : ascii := ascii_of_nat 10.
Definition tab : ascii := ascii_of_nat 9.
Definition space : ascii := ascii_of_nat 32.
Definition NL : string := String newline EmptyString.
Definition TAB : string := String tab EmptyString.

(** Go's [int] on the 64-bit targets the server is built for *)
Definition wrap64 (z : Z) : Z := (z + 2 ^ 63) mod 2 ^ 64 - 2 ^ 63.

(* ===================================================================== *)
(** ** The syntax tree, as the analyzer and the formatter use it *)
(* ===================================================================== *)

Module ast.

(** Expression nodes.  A float literal is represented by the text that
    [%g] prints for its value, which is all the sources observe of it.  The
    [String] method of a node belongs to the language implementation: a
    node on which the sources call it carries its text. *)
Inductive Expression : Type :=
| Identifier (Value : string)
| IntegerLiteral (Value : Z)
| FloatLiteral (Value : string)
| StringLiteral (Value : string)
| Boolean (Value : bool)
| NoneLiteral
| ArrayLiteral (Elements : list Expression)
| HashLiteral (Pairs : list (Expression * Expression))
| TupleLiteral (Elements : list Expression)
| CallExpression (Function : Expression) (Arguments : list Expression)
| InfixExpression (Left : Expression) (Operator : string) (Right : Expression)
| PrefixExpression (Operator : string) (Right : Expression)
| IndexExpression (Left : Expression) (Index : Expression)
| DotExpression (Left : Expression) (Right : string)
| SliceExpression (Left : Expression) (Start : option Expression) (Stop : option Expression)
| OtherExpression (String : string).

(** An expression together with the text of its [String] method, for
    the two places where the analyzer calls that method. *)
Record Printed : Type := MkPrinted { Node : Expression; Text : string }.

(** An element of a parameter list: an ordinary expression (an
    identifier, as a rule) or a [*ast.Parameter]. *)
Inductive ParamNode : Type :=
| ParamExpression (e : Expression)
| ParameterNode (Name : string) (TypeHint : option Printed) (DefaultValue : option Printed).

Inductive Statement : Type :=
| SFunctionDefinition (fn : FunctionDefinition)
| GrimoireDefinition (Name : string) (Inherits : option string) (DocString : option string)
    (InitMethod : option FunctionDefinition) (Methods : list FunctionDefinition)
| AssignStatement (Name : Expression) (Operator : string) (Value : option Expression)
| ExpressionStatement (Expr : option Expression)
| BlockStatement (Statements : list Statement) (String : string)
| IfStatement (Condition : Expression) (Consequence : option (list Statement))
    (OtherwiseBranches : list (Expression * option (list Statement)))
    (Alternative : option (list Statement))
| ForStatement (Var : Expression) (Iterable : Expression)
    (Body : option (list Statement)) (Alternative : option (list Statement))
| WhileStatement (Condition : Expression) (Body : option (list Statement))
| ReturnStatement (ReturnValue : option Expression)
| AttemptStatement (TryBlock : option (list Statement))
    (EnsnareClauses : list (option Expression * option string * option (list Statement)))
    (ResolveBlock : option (list Statement))
| WithStatement (Expr : Expression) (Var : string) (Body : option (list Statement))
| ImportStatement (FilePath : option string) (ClassName : option string) (Alias : option string)
| MatchStatement (MatchValue : Expression)
    (Cases : list (Expression * option (list Statement)))
    (Default : option (option (list Statement)))
| MainStatement (Body : option (list Statement))
| GlobalStatement (Names : list string)
| OtherStatement (String : string)
with FunctionDefinition : Type :=
| MkFunctionDefinition (Name : string) (Parameters : list ParamNode)
    (DocString : option string) (Body : option (list Statement)).

Definition fnName (fn : FunctionDefinition) : string :=
  match fn with MkFunctionDefinition n _ _ _ => n end.
Definition fnParameters (fn : FunctionDefinition) : list ParamNode :=
  match fn with MkFunctionDefinition _ p _ _ => p end.
Definition fnDocString (fn : FunctionDefinition) : option string :=
  match fn with MkFunctionDefinition _ _ d _ => d end.
Definition fnBody (fn : FunctionDefinition) : option (list Statement) :=
  match fn with MkFunctionDefinition _ _ _ b => b end.

(** [*ast.Program] *)
Definition Program : Type := list Statement.

End ast.

Import ast.

(** [token.Token] of the language's lexer, with the token types that the
    server distinguishes; every other type is [OTHER]. *)
Module token.

Inductive TokenType : Type :=
| SPELL | GRIMOIRE | IF | ELSE | FOR | WHILE | RETURN | IMPORT | AS
| STRING | DOCSTRING
| INT | FLOAT
| ASSIGN | PLUS | MINUS | ASTERISK | SLASH | EQ | NOT_EQ
| IDENT
| EOF
| OTHER (name : string).

Record Token : Type := MkToken {
  Type_ : TokenType;
  Literal : string;
  Line : Z;
  Column : Z
}.

End token.

(* ===================================================================== *)
(** ** Protocol values (package [protocol]) *)
(* ===================================================================== *)

Module protocol.

Record Position : Type := MkPosition { Line : nat; Character : nat }.

Record Range : Type := MkRange { Start : Position; End_ : Position }.

Inductive CompletionItemKind : Type :=
| CompletionItemKindMethod
| CompletionItemKindFunction
| CompletionItemKindVariable
| CompletionItemKindClass
| CompletionItemKindKeyword.

Definition CompletionItemKind_value (k : CompletionItemKind) : Z :=
  match k with
  | CompletionItemKindMethod => 2
  | CompletionItemKindFunction => 3
  | CompletionItemKindVariable => 6
  | CompletionItemKindClass => 7
  | CompletionItemKindKeyword => 14
  end.

Inductive InsertTextFormat : Type :=
| InsertTextFormatUnset
| InsertTextFormatPlainText
| InsertTextFormatSnippet.

Record CompletionItem : Type := MkCompletionItem {
  Label : string;
  Kind : CompletionItemKind;
  Detail : string;
  Documentation : string;
  InsertText : string;
  InsertTextFormat_ : InsertTextFormat
}.

Inductive SymbolKind : Type :=
| SymbolKindClass
| SymbolKindMethod
| SymbolKindFunction.

Definition SymbolKind_value (k : SymbolKind) : Z :=
  match k with
  | SymbolKindClass => 5
  | SymbolKindMethod => 6
  | SymbolKindFunction => 12
  end.

(** A document symbol and its children; the server nests one level. *)
Record DocumentSymbolLeaf : Type := MkDocumentSymbolLeaf {
  leaf_Name : string;
  leaf_Kind : SymbolKind;
  leaf_Range : Range;
  leaf_SelectionRange : Range
}.

Record DocumentSymbol : Type := MkDocumentSymbol {
  Name : string;
  SymKind : SymbolKind;
  SymRange : Range;
  SelectionRange : Range;
  Children : list DocumentSymbolLeaf
}.

Record TextEdit : Type := MkTextEdit { EditRange : Range; NewText : string }.

Record FormattingOptions : Type := MkFormattingOptions {
  TabSize : nat;
  InsertSpaces : bool;
  TrimTrailingWhitespace : bool;
  InsertFinalNewline : bool;
  TrimFinalNewlines : bool
}.

End protocol.

(* ===================================================================== *)
(** ** The analyzer's data (analyzer.go) *)
(* ===================================================================== *)

Record Parameter_ : Type := MkParameter {
  par_Name : string;
  par_TypeHint : string;
  par_DefaultValue : string;
  par_Range : protocol.Range
}.

Record SpellSymbol : Type := MkSpellSymbol {
  sp_Name : string;
  sp_Range : protocol.Range;
  sp_Parameters : list Parameter_;
  sp_ReturnType : string;
  sp_IsInit : bool;
  sp_IsStatic : bool;
  sp_IsPrivate : bool;
  sp_IsProtected : bool;
  sp_DocString : string;
  sp_Grimoire : string
}.

Record GrimoireSymbol : Type := MkGrimoireSymbol {
  gr_Name : string;
  gr_Range : protocol.Range;
  gr_InitSpell : option SpellSymbol;
  gr_Spells : gmap string SpellSymbol;
  gr_IsArcane : bool;
  gr_Inherits : string;
  gr_DocString : string
}.

Record VariableSymbol : Type := MkVariableSymbol {
  var_Name : string;
  var_Range : protocol.Range;
  var_Type : string;
  var_Value : string;
  var_IsGlobal : bool
}.

Record ImportSymbol : Type := MkImportSymbol {
  imp_Name : string;
  imp_Range : protocol.Range;
  imp_Path : string;
  imp_Alias : string;
  imp_ClassName : string
}.

Record SymbolTable : Type := MkSymbolTable {
  Grimoires : gmap string GrimoireSymbol;
  Spells : gmap string SpellSymbol;
  Variables : gmap string VariableSymbol;
  Imports : gmap string ImportSymbol
}.

Record BuiltinInfo : Type := MkBuiltinInfo {
  bi_Name : string;
  bi_Type : string;
  bi_Description : string;
  bi_Parameters : list Parameter_;
  bi_ReturnType : string
}.

Record GrimoireInfo : Type := MkGrimoireInfo {
  gi_Name : string;
  gi_Description : string;
  gi_Spells : gmap string BuiltinInfo;
  gi_IsStatic : bool
}.

Record Document : Type := MkDocument {
  URI : string;
  Content : string;
  AST : Program;
  Tokens : list token.Token;
  Symbols : SymbolTable;
  Version : Z
}.

(** [BifrostIntegration] without its back pointer to the analyzer: the
    methods below take the analyzer that owns it. *)
Record BifrostIntegration : Type := MkBifrostIntegration {
  packagePaths : list string;
  loadedPackages : gmap string bool
}.

(** [DynamicLoader]: the interpreter environment is represented by the
    programs evaluated into it so far. *)
Record DynamicLoader : Type := MkDynamicLoader {
  env : list Program;
  dl_builtins : gmap string BuiltinInfo;
  dl_grimoires : gmap string GrimoireInfo
}.

Record Analyzer : Type := MkAnalyzer {
  documents : gmap string Document;
  builtins : gmap string BuiltinInfo;
  carriongGrimoires : gmap string GrimoireInfo;
  dynamicLoader : DynamicLoader;
  bifrostIntegration : BifrostIntegration
}.

(* ===================================================================== *)
(** ** Symbol extraction (analyzer.go) *)
(* ===================================================================== *)

(** [astNodeToRange]: a placeholder range for every node *)
Definition astNodeToRange : protocol.Range :=
  protocol.MkRange (protocol.MkPosition 0 0) (protocol.MkPosition 0 0).

Definition orEmpty (s : option string) : string :=
  match s with Some v => v | None => EmptyString end.

Definition printedOrEmpty (p : option Printed) : string :=
  match p with Some v => Text v | None => EmptyString end.

Definition extractParameters (params : list ParamNode) : list Parameter_ :=
  flat_map
    (fun param =>
       match param with
       | ParamExpression (Identifier v) => [MkParameter v "" "" astNodeToRange]
       | ParameterNode n hint dflt =>
           [MkParameter n (printedOrEmpty hint) (printedOrEmpty dflt) astNodeToRange]
       | ParamExpression _ => []
       end)
    params.

Definition inferType (expr : Expression) : string :=
  match expr with
  | IntegerLiteral _ => "int"
  | FloatLiteral _ => "float"
  | StringLiteral _ => "string"
  | Boolean _ => "bool"
  | ArrayLiteral _ => "array"
  | HashLiteral _ => "hash"
  | TupleLiteral _ => "tuple"
  | NoneLiteral => "None"
  | Identifier v => v
  | _ => "unknown"
  end.

Definition inferTypeWithContext (a : Analyzer) (expr : Expression) (symbols : SymbolTable)
  : string :=
  match expr with
  | IntegerLiteral _ => "int"
  | FloatLiteral _ => "float"
  | StringLiteral _ => "string"
  | Boolean _ => "bool"
  | ArrayLiteral _ => "array"
  | HashLiteral _ => "hash"
  | TupleLiteral _ => "tuple"
  | NoneLiteral => "None"
  | CallExpression (Identifier ident) _ =>
      match Grimoires symbols !! ident with
      | Some _ => ident
      | None =>
          match carriongGrimoires a !! ident with
          | Some _ => ident
          | None => "unknown"
          end
      end
  | CallExpression _ _ => "unknown"
  | Identifier v =>
      match Variables symbols !! v with
      | Some variable => var_Type variable
      | None => v
      end
  | _ => "unknown"
  end.

Definition setVariables (symbols : SymbolTable) (vs : gmap string VariableSymbol)
  : SymbolTable :=
  MkSymbolTable (Grimoires symbols) (Spells symbols) vs (Imports symbols).

Definition setSpells (symbols : SymbolTable) (ss : gmap string SpellSymbol)
  : SymbolTable :=
  MkSymbolTable (Grimoires symbols) ss (Variables symbols) (Imports symbols).

Definition setGrimoires (symbols : SymbolTable) (gs : gmap string GrimoireSymbol)
  : SymbolTable :=
  MkSymbolTable gs (Spells symbols) (Variables symbols) (Imports symbols).

Definition setImports (symbols : SymbolTable) (imps : gmap string ImportSymbol)
  : SymbolTable :=
  MkSymbolTable (Grimoires symbols) (Spells symbols) (Variables symbols) imps.

(** [analyzeVariable] on the fields of an [*ast.AssignStatement] *)
Definition analyzeVariable (a : Analyzer) (name : Expression) (value : option Expression)
    (symbols : SymbolTable) : SymbolTable :=
  match name with
  | Identifier ident =>
      let type :=
        match value with
        | Some v => inferTypeWithContext a v symbols
        | None => EmptyString
        end in
      setVariables symbols
        (<[ident := MkVariableSymbol ident astNodeToRange type "" false]> (Variables symbols))
  | _ => symbols
  end.

(** The loop of [analyzeBlockStatement] over a block that may be nil *)
Definition scanBlock (scan : Statement -> SymbolTable -> SymbolTable)
    (block : option (list Statement)) (symbols : SymbolTable) : SymbolTable :=
  match block with
  | None => symbols
  | Some stmts => fold_left (fun acc stmt => scan stmt acc) stmts symbols
  end.

(** One iteration of the loop of [analyzeBlockStatement]: the type switch
    on the statement.  Only assignments, nested blocks, the two branches
    of an [if], and the bodies of [for] and [while] are looked into. *)
Fixpoint analyzeBlockItem (a : Analyzer) (stmt : Statement) (symbols : SymbolTable)
    {struct stmt} : SymbolTable :=
  match stmt with
  | AssignStatement name _ value => analyzeVariable a name value symbols
  | BlockStatement stmts _ =>
      fold_left (fun acc st => analyzeBlockItem a st acc) stmts symbols
  | IfStatement _ consequence _ alternative =>
      scanBlock (analyzeBlockItem a) alternative
        (scanBlock (analyzeBlockItem a) consequence symbols)
  | ForStatement _ _ body _ => scanBlock (analyzeBlockItem a) body symbols
  | WhileStatement _ body => scanBlock (analyzeBlockItem a) body symbols
  | _ => symbols
  end.

Definition analyzeBlockStatement (a : Analyzer) (block : list Statement)
    (symbols : SymbolTable) : SymbolTable :=
  fold_left (fun acc stmt => analyzeBlockItem a stmt acc) block symbols.

(** the guarded call [if body != nil { a.analyzeBlockStatement(body, symbols) }] *)
Definition analyzeBody (a : Analyzer) (body : option (list Statement))
    (symbols : SymbolTable) : SymbolTable :=
  match body with
  | Some block => analyzeBlockStatement a block symbols
  | None => symbols
  end.

Definition analyzeSpell (a : Analyzer) (node : FunctionDefinition) (symbols : SymbolTable)
  : SymbolTable :=
  let spell :=
    MkSpellSymbol (fnName node) astNodeToRange (extractParameters (fnParameters node))
      "" false false false false (orEmpty (fnDocString node)) "" in
  let symbols := setSpells symbols (<[sp_Name spell := spell]> (Spells symbols)) in
  analyzeBody a (fnBody node) symbols.

(** The symbol of the [init] method of the grimoire called [grimoire] *)
Definition initSpellOf (grimoire : string) (init : FunctionDefinition) : SpellSymbol :=
  MkSpellSymbol "init" astNodeToRange (extractParameters (fnParameters init))
    "" true false false false (orEmpty (fnDocString init)) grimoire.

(** The symbol of a regular method of the grimoire called [grimoire] *)
Definition methodSpellOf (grimoire : string) (method : FunctionDefinition) : SpellSymbol :=
  MkSpellSymbol (fnName method) astNodeToRange (extractParameters (fnParameters method))
    "" false false false false (orEmpty (fnDocString method)) grimoire.

(** The loop over [node.Methods]: the state is the grimoire's own spell
    map and the document's symbol table. *)
Definition analyzeMethods (a : Analyzer) (grimoire : string)
    (methods : list FunctionDefinition)
    (st : gmap string SpellSymbol * SymbolTable) : gmap string SpellSymbol * SymbolTable :=
  fold_left
    (fun st method =>
       let spell := methodSpellOf grimoire method in
       let symbols := analyzeBody a (fnBody method) (snd st) in
       (<[sp_Name spell := spell]> (fst st),
        setSpells symbols (<[sp_Name spell := spell]> (Spells symbols))))
    methods st.

(** [analyzeGrimoire] on the fields of an [*ast.GrimoireDefinition] *)
Definition analyzeGrimoire (a : Analyzer) (name : string) (inherits docString : option string)
    (initMethod : option FunctionDefinition) (methods : list FunctionDefinition)
    (symbols : SymbolTable) : SymbolTable :=
  let afterInit :=
    match initMethod with
    | Some init =>
        let initSpell := initSpellOf name init in
        let symbols := analyzeBody a (fnBody init) symbols in
        (Some initSpell, setSpells symbols (<["init" := initSpell]> (Spells symbols)))
    | None => (None, symbols)
    end in
  let afterMethods := analyzeMethods a name methods (∅, snd afterInit) in
  let grimoire :=
    MkGrimoireSymbol name astNodeToRange (fst afterInit) (fst afterMethods)
      false (orEmpty inherits) (orEmpty docString) in
  setGrimoires (snd afterMethods) (<[name := grimoire]> (Grimoires (snd afterMethods))).

(** [filepath.Base] *)
Definition filepath_Base (path : string) : string :=
  if String.eqb path "" then "."
  else
    let stripped := TrimRight path "/" in
    if String.eqb stripped "" then "/"
    else lastField (Split stripped "/"%char).

(** [analyzeImport] on the fields of an [*ast.ImportStatement] *)
Definition analyzeImport (filePath className alias : option string) (symbols : SymbolTable)
  : SymbolTable :=
  let name0 :=
    match filePath with
    | Some p => filepath_Base (TrimSuffix p ".crl")
    | None => EmptyString
    end in
  let name1 := match className with Some c => c | None => name0 end in
  let name2 := match alias with Some al => al | None => name1 end in
  let importSym :=
    MkImportSymbol name2 astNodeToRange (orEmpty filePath) (orEmpty alias) (orEmpty className) in
  setImports symbols (<[imp_Name importSym := importSym]> (Imports symbols)).

Definition emptySymbolTable : SymbolTable := MkSymbolTable ∅ ∅ ∅ ∅.

(** One iteration of the loop of [buildSymbolTable] *)
Definition analyzeTopLevel (a : Analyzer) (stmt : Statement) (symbols : SymbolTable)
  : SymbolTable :=
  match stmt with
  | GrimoireDefinition name inherits docString initMethod methods =>
      analyzeGrimoire a name inherits docString initMethod methods symbols
  | SFunctionDefinition node => analyzeSpell a node symbols
  | AssignStatement name _ value => analyzeVariable a name value symbols
  | ImportStatement filePath className alias => analyzeImport filePath className alias symbols
  | _ => symbols
  end.

Definition buildSymbolTable (a : Analyzer) (program : Program) : SymbolTable :=
  fold_left (fun symbols stmt => analyzeTopLevel a stmt symbols) program emptySymbolTable.

(* ===================================================================== *)
(** ** Feature providers (features.go) *)
(* ===================================================================== *)

Definition formatParameters (params : list Parameter_) : string :=
  Join
    (map
       (fun param =>
          let part := par_Name param in
          let part :=
            if String.eqb (par_TypeHint param) "" then part
            else part +:+ ": " +:+ par_TypeHint param in
          if String.eqb (par_DefaultValue param) "" then part
          else part +:+ " = " +:+ par_DefaultValue param)
       params)
    ", ".

Definition formatSpellParameters (params : list Parameter_) : string :=
  formatParameters params.

(** The completion item that the three loops over the spells of a catalog
    grimoire append for the entry [spellName ↦ spell] *)
Definition catalogSpellItem (entry : string * BuiltinInfo) : protocol.CompletionItem :=
  let '(spellName, spell) := entry in
  protocol.MkCompletionItem spellName protocol.CompletionItemKindMethod
    ("spell " +:+ bi_Name spell +:+ "(" +:+ formatParameters (bi_Parameters spell) +:+ ") -> "
       +:+ bi_ReturnType spell)
    (bi_Description spell)
    (bi_Name spell +:+ "(${1})")
    protocol.InsertTextFormatSnippet.

(** The completion item that the loop over the spells of a document
    grimoire appends for the entry [spellName ↦ spell] *)
Definition documentSpellItem (entry : string * SpellSymbol) : protocol.CompletionItem :=
  let '(spellName, spell) := entry in
  protocol.MkCompletionItem spellName protocol.CompletionItemKindMethod
    ("spell " +:+ sp_Name spell +:+ "(" +:+ formatSpellParameters (sp_Parameters spell)
       +:+ ") -> " +:+ sp_ReturnType spell)
    (sp_DocString spell)
    (sp_Name spell +:+ "(${1})")
    protocol.InsertTextFormatSnippet.

(** [for spellName, spell := range grimoire.Spells] over a catalog grimoire
    that may be missing from the table *)
Definition catalogSpellItems (grimoire : option GrimoireInfo) : list protocol.CompletionItem :=
  match grimoire with
  | Some g => map catalogSpellItem (map_to_list (gi_Spells g))
  | None => []
  end.

Definition documentSpellItems (grimoire : option GrimoireSymbol)
  : list protocol.CompletionItem :=
  match grimoire with
  | Some g => map documentSpellItem (map_to_list (gr_Spells g))
  | None => []
  end.

Definition primitiveToGrimoire : gmap string string :=
  <["string" := "String"]>
    (<["int" := "Integer"]>
       (<["float" := "Float"]>
          (<["bool" := "Boolean"]>
             (<["array" := "Array"]> ∅)))).

(** The object before the dot: the last of the fields of the prefix,
    without its final dot, that single spaces separate *)
Definition objectBeforeDot (prefix : string) : string :=
  lastField (Split (TrimSuffix prefix ".") space).

(** The four yields of member completion, in the order in which
    [getMethodCompletions] appends them *)
Definition yieldCatalogObject (a : Analyzer) (objectName : string)
  : list protocol.CompletionItem :=
  catalogSpellItems (carriongGrimoires a !! objectName).

Definition yieldDocumentGrimoire (doc : Document) (variable : VariableSymbol)
  : list protocol.CompletionItem :=
  documentSpellItems (Grimoires (Symbols doc) !! var_Type variable).

Definition yieldCatalogType (a : Analyzer) (variable : VariableSymbol)
  : list protocol.CompletionItem :=
  catalogSpellItems (carriongGrimoires a !! var_Type variable).

Definition yieldPrimitive (a : Analyzer) (variable : VariableSymbol)
  : list protocol.CompletionItem :=
  match primitiveToGrimoire !! var_Type variable with
  | Some grimoireName => catalogSpellItems (carriongGrimoires a !! grimoireName)
  | None => []
  end.

Definition getMethodCompletions (a : Analyzer) (doc : Document) (prefix : string)
  : list protocol.CompletionItem :=
  let objectName := objectBeforeDot prefix in
  yieldCatalogObject a objectName ++
  match Variables (Symbols doc) !! objectName with
  | Some variable =>
      yieldDocumentGrimoire doc variable ++ yieldCatalogType a variable
        ++ yieldPrimitive a variable
  | None => []
  end.

Definition getParameterCompletions (a : Analyzer) (doc : Document) (prefix : string)
  : list protocol.CompletionItem := [].

Definition isAlphaNumeric (ch : ascii) : bool :=
  let n := nat_of_ascii ch in
  (((97 <=? n) && (n <=? 122)) || ((65 <=? n) && (n <=? 90)) || ((48 <=? n) && (n <=? 57)))%nat.

Definition isIdentByte (ch : ascii) : bool :=
  isAlphaNumeric ch || Ascii.eqb ch "_"%char.

Definition isBlankByte (ch : ascii) : bool :=
  Ascii.eqb ch space || Ascii.eqb ch tab.

(** [extractLastToken]: skip the trailing blanks, then walk back over
    identifier bytes; the text is scanned from its end, that is, its
    reversal from the front. *)
Definition extractLastToken (text : string) : string :=
  String.rev (takeLeading isIdentByte (dropLeading isBlankByte (String.rev text))).

Definition keywords : list string :=
  [ "spell"; "grim"; "init"; "self"; "if"; "otherwise"; "else"; "for"; "in"; "while";
    "return"; "attempt"; "ensnare"; "resolve"; "raise"; "import"; "as"; "match"; "case";
    "stop"; "skip"; "ignore"; "True"; "False"; "None"; "and"; "or"; "not"; "main";
    "global"; "autoclose"; "arcane"; "arcanespell"; "super"; "check" ].

Definition keywordInsertText (keyword : string) : string :=
  if String.eqb keyword "spell" then
    "spell ${1:name}(${2:params}):" +:+ NL +:+ TAB +:+ "${3:body}"
  else if String.eqb keyword "grim" then
    "grim ${1:ClassName}:" +:+ NL +:+ TAB +:+ "init(${2:params}):" +:+ NL +:+ TAB +:+ TAB
      +:+ "${3:body}"
  else if String.eqb keyword "if" then
    "if ${1:condition}:" +:+ NL +:+ TAB +:+ "${2:body}"
  else if String.eqb keyword "for" then
    "for ${1:var} in ${2:iterable}:" +:+ NL +:+ TAB +:+ "${3:body}"
  else if String.eqb keyword "while" then
    "while ${1:condition}:" +:+ NL +:+ TAB +:+ "${2:body}"
  else if String.eqb keyword "attempt" then
    "attempt:" +:+ NL +:+ TAB +:+ "${1:try_body}" +:+ NL +:+ "ensnare:" +:+ NL +:+ TAB
      +:+ "${2:except_body}"
  else if String.eqb keyword "autoclose" then
    "autoclose ${1:resource} as ${2:var}:" +:+ NL +:+ TAB +:+ "${3:body}"
  else keyword.

Definition keywordItem (keyword : string) : protocol.CompletionItem :=
  let insertText := keywordInsertText keyword in
  if Contains insertText "${" then
    protocol.MkCompletionItem keyword protocol.CompletionItemKindKeyword "" "" insertText
      protocol.InsertTextFormatSnippet
  else
    protocol.MkCompletionItem keyword protocol.CompletionItemKindKeyword "" "" insertText
      protocol.InsertTextFormatUnset.

Definition builtinItem (entry : string * BuiltinInfo) : protocol.CompletionItem :=
  let '(name, builtin) := entry in
  protocol.MkCompletionItem name protocol.CompletionItemKindFunction
    (bi_Name builtin +:+ "(" +:+ formatParameters (bi_Parameters builtin) +:+ ") -> "
       +:+ bi_ReturnType builtin)
    (bi_Description builtin)
    (name +:+ "(${1})")
    protocol.InsertTextFormatSnippet.

Definition catalogGrimoireItem (entry : string * GrimoireInfo) : protocol.CompletionItem :=
  let '(name, grimoire) := entry in
  protocol.MkCompletionItem name protocol.CompletionItemKindClass ("grim " +:+ name)
    (gi_Description grimoire) "" protocol.InsertTextFormatUnset.

Definition documentGrimoireItem (entry : string * GrimoireSymbol) : protocol.CompletionItem :=
  let '(name, grimoire) := entry in
  protocol.MkCompletionItem name protocol.CompletionItemKindClass ("grim " +:+ name)
    (gr_DocString grimoire) "" protocol.InsertTextFormatUnset.

Definition documentFunctionItem (entry : string * SpellSymbol) : protocol.CompletionItem :=
  let '(name, spell) := entry in
  protocol.MkCompletionItem name protocol.CompletionItemKindFunction
    ("spell " +:+ sp_Name spell +:+ "(" +:+ formatSpellParameters (sp_Parameters spell)
       +:+ ") -> " +:+ sp_ReturnType spell)
    (sp_DocString spell)
    (name +:+ "(${1})")
    protocol.InsertTextFormatSnippet.

Definition documentVariableItem (entry : string * VariableSymbol) : protocol.CompletionItem :=
  let '(name, variable) := entry in
  protocol.MkCompletionItem name protocol.CompletionItemKindVariable
    (name +:+ ": " +:+ var_Type variable) "" "" protocol.InsertTextFormatUnset.

(** [for name, v := range table { if strings.HasPrefix(name, matchToken) {...} }] *)
Definition matching {V : Type} (matchToken : string) (table : gmap string V)
  : list (string * V) :=
  List.filter (fun entry => HasPrefix (fst entry) matchToken) (map_to_list table).

(** The six yields of general completion, in the order in which
    [getGeneralCompletions] appends them *)
Definition yieldKeywords (matchToken : string) : list protocol.CompletionItem :=
  map keywordItem
    (List.filter (fun keyword => HasPrefix keyword (ToLower matchToken)) keywords).

Definition yieldBuiltins (a : Analyzer) (matchToken : string) : list protocol.CompletionItem :=
  map builtinItem (matching matchToken (builtins a)).

Definition yieldCatalogGrimoires (a : Analyzer) (matchToken : string)
  : list protocol.CompletionItem :=
  map catalogGrimoireItem (matching matchToken (carriongGrimoires a)).

Definition yieldDocumentGrimoires (doc : Document) (matchToken : string)
  : list protocol.CompletionItem :=
  map documentGrimoireItem (matching matchToken (Grimoires (Symbols doc))).

Definition yieldDocumentSpells (doc : Document) (matchToken : string)
  : list protocol.CompletionItem :=
  map documentFunctionItem (matching matchToken (Spells (Symbols doc))).

Definition yieldDocumentVariables (doc : Document) (matchToken : string)
  : list protocol.CompletionItem :=
  map documentVariableItem (matching matchToken (Variables (Symbols doc))).

Definition getGeneralCompletions (a : Analyzer) (doc : Document) (prefix : string)
  : list protocol.CompletionItem :=
  let matchToken := extractLastToken prefix in
  yieldKeywords matchToken ++ yieldBuiltins a matchToken ++ yieldCatalogGrimoires a matchToken
    ++ yieldDocumentGrimoires doc matchToken ++ yieldDocumentSpells doc matchToken
    ++ yieldDocumentVariables doc matchToken.

(** The prefix that [GetCompletions] computes from the text and the
    cursor; [None] when the cursor's line is beyond the last line, where
    the function returns before it computes a prefix. *)
Definition completionPrefix (content : string) (position : protocol.Position)
  : option string :=
  match Split content newline !! protocol.Line position with
  | None => None
  | Some currentLine =>
      Some (if (protocol.Character position <=? String.length currentLine)%nat
            then sliceTo currentLine (protocol.Character position)
            else EmptyString)
  end.

Definition GetCompletions (a : Analyzer) (uri : string) (position : protocol.Position)
  : list protocol.CompletionItem :=
  match documents a !! uri with
  | None => []
  | Some doc =>
      match completionPrefix (Content doc) position with
      | None => []
      | Some prefix =>
          if HasSuffix prefix "." then getMethodCompletions a doc prefix
          else if HasSuffix prefix "(" then getParameterCompletions a doc prefix
          else getGeneralCompletions a doc prefix
      end
  end.

Definition mapTokenToSemanticType (tokenType : token.TokenType) : Z :=
  match tokenType with
  | token.SPELL | token.GRIMOIRE | token.IF | token.ELSE | token.FOR | token.WHILE
  | token.RETURN | token.IMPORT | token.AS => 0
  | token.STRING | token.DOCSTRING => 1
  | token.INT | token.FLOAT => 2
  | token.ASSIGN | token.PLUS | token.MINUS | token.ASTERISK | token.SLASH
  | token.EQ | token.NOT_EQ => 3
  | token.IDENT => 4
  | _ => -1
  end.

(** The five integers that the loop of [GetSemanticTokens] appends for one
    token, or nothing when the token's type is skipped *)
Definition semanticTokenData (tok : token.Token) : list Z :=
  let tokenType := mapTokenToSemanticType (token.Type_ tok) in
  if 0 <=? tokenType
  then [token.Line tok; token.Column tok; Z.of_nat (String.length (token.Literal tok));
        tokenType; 0]
  else [].

Definition semanticTokensOf (tokens : list token.Token) : list Z :=
  flat_map semanticTokenData tokens.

(** [GetSemanticTokens]; [None] is the nil reply for an unknown document. *)
Definition GetSemanticTokens (a : Analyzer) (uri : string) : option (list Z) :=
  match documents a !! uri with
  | None => None
  | Some doc => Some (semanticTokensOf (Tokens doc))
  end.

Definition grimoireDocumentSymbol (grimoire : GrimoireSymbol) : protocol.DocumentSymbol :=
  protocol.MkDocumentSymbol (gr_Name grimoire) protocol.SymbolKindClass (gr_Range grimoire)
    (gr_Range grimoire)
    (map
       (fun entry =>
          let spell := snd entry in
          protocol.MkDocumentSymbolLeaf (sp_Name spell) protocol.SymbolKindMethod
            (sp_Range spell) (sp_Range spell))
       (map_to_list (gr_Spells grimoire))).

Definition standaloneSpellSymbols (spells : gmap string SpellSymbol)
  : list protocol.DocumentSymbol :=
  map
    (fun entry =>
       let spell := snd entry in
       protocol.MkDocumentSymbol (sp_Name spell) protocol.SymbolKindFunction (sp_Range spell)
         (sp_Range spell) [])
    (List.filter (fun entry => String.eqb (sp_Grimoire (snd entry)) "")
       (map_to_list spells)).

Definition GetDocumentSymbols (a : Analyzer) (uri : string) : list protocol.DocumentSymbol :=
  match documents a !! uri with
  | None => []
  | Some doc =>
      map (fun entry => grimoireDocumentSymbol (snd entry))
        (map_to_list (Grimoires (Symbols doc)))
      ++ standaloneSpellSymbols (Spells (Symbols doc))
  end.

(* ===================================================================== *)
(** ** The language implementation, as far as the server calls it *)
(* ===================================================================== *)

(** The lexer, the parser and the interpreter's environment.  [lex] is the
    token stream up to and including the end-of-file token;
    [ParseProgram] and [Errors] are the program and the error list of one
    parser run on a text; [runtimeBuiltins] and [runtimeGrimoires] are the
    tables that the dynamic loader enumerates from the environment after
    the given programs were evaluated into it. *)
Record Language : Type := MkLanguage {
  lex : string -> list token.Token;
  ParseProgram : string -> Program;
  Errors : string -> list string;
  runtimeBuiltins : list Program -> gmap string BuiltinInfo;
  runtimeGrimoires : list Program -> gmap string GrimoireInfo
}.

(* ===================================================================== *)
(** ** The formatter *)
(* ===================================================================== *)

(** [CarrionFormatter]; its [indentLevel] field is raised before and
    lowered after every nested block, so it is the [level] argument of the
    functions below. *)
Record CarrionFormatter : Type := MkCarrionFormatter {
  tabSize : nat;
  insertSpaces : bool;
  options : protocol.FormattingOptions
}.

Definition NewCarrionFormatter (options : protocol.FormattingOptions) : CarrionFormatter :=
  MkCarrionFormatter (protocol.TabSize options) (protocol.InsertSpaces options) options.

Definition dquote : string := String (ascii_of_nat 34) EmptyString.
Definition tripleQuote : string := dquote +:+ dquote +:+ dquote.

Definition nonEmpty (parts : list string) : list string :=
  List.filter (fun part => negb (String.eqb part "")) parts.

Section Formatter.

(** The order in which a [range] statement visits the entries of a Go
    map, here the pairs of a hash literal: some rearrangement of the
    entries, not fixed by the language.  Formatting a pair has no effect, so
    the rearrangement is applied to the formatted pairs. *)
Variable rangeOrder : forall A : Type, list A -> list A.

Variable f : CarrionFormatter.

Definition indentString (level : nat) : string :=
  if insertSpaces f then Repeat " " (level * tabSize f) else Repeat TAB level.

Definition bracketed (open close : string) (level : nat) (elements : list string) : string :=
  open +:+ NL +:+ indentString (level + 1)
    +:+ Join elements ("," +:+ NL +:+ indentString (level + 1))
    +:+ NL +:+ indentString level +:+ close.

Fixpoint formatExpression (level : nat) (expr : Expression) {struct expr} : string :=
  match expr with
  | Identifier v => v
  | IntegerLiteral v => pretty v
  | FloatLiteral g => g
  | StringLiteral v => dquote +:+ v +:+ dquote
  | Boolean true => "True"
  | Boolean false => "False"
  | NoneLiteral => "None"
  | ArrayLiteral [] => "[]"
  | ArrayLiteral elements =>
      let elements := map (formatExpression level) elements in
      if (List.length elements <=? 3)%nat
      then "[" +:+ Join elements ", " +:+ "]"
      else bracketed "[" "]" level elements
  | HashLiteral [] => "{}"
  | HashLiteral pairs =>
      let pairs :=
        rangeOrder string
          (map (fun kv => formatExpression level (fst kv) +:+ ": "
                            +:+ formatExpression level (snd kv)) pairs) in
      if (List.length pairs <=? 2)%nat
      then "{" +:+ Join pairs ", " +:+ "}"
      else bracketed "{" "}" level pairs
  | TupleLiteral elements =>
      "(" +:+ Join (map (formatExpression level) elements) ", " +:+ ")"
  | CallExpression function arguments =>
      formatExpression level function +:+ "("
        +:+ Join (map (formatExpression level) arguments) ", " +:+ ")"
  | InfixExpression lhs operator rhs =>
      formatExpression level lhs +:+ " " +:+ operator +:+ " " +:+ formatExpression level rhs
  | PrefixExpression operator rhs => operator +:+ formatExpression level rhs
  | IndexExpression lhs index =>
      formatExpression level lhs +:+ "[" +:+ formatExpression level index +:+ "]"
  | DotExpression lhs rhs => formatExpression level lhs +:+ "." +:+ rhs
  | SliceExpression lhs start stop =>
      formatExpression level lhs +:+ "["
        +:+ match start with Some e => formatExpression level e | None => EmptyString end
        +:+ ":"
        +:+ match stop with Some e => formatExpression level e | None => EmptyString end
        +:+ "]"
  | OtherExpression text => text
  end.

(** [formatExpression] on a pointer that may be nil *)
Definition formatOptExpression (level : nat) (expr : option Expression) : string :=
  match expr with Some e => formatExpression level e | None => EmptyString end.

(** The formatter's [formatParameters], on the parameter nodes of the tree *)
Definition formatParameterNodes (level : nat) (params : list ParamNode) : string :=
  Join
    (map
       (fun param =>
          match param with
          | ParamExpression (Identifier v) => v
          | ParameterNode name hint dflt =>
              name
                +:+ match hint with
                    | Some h => ": " +:+ formatExpression level (Node h)
                    | None => EmptyString
                    end
                +:+ match dflt with
                    | Some d => " = " +:+ formatExpression level (Node d)
                    | None => EmptyString
                    end
          | ParamExpression e => formatExpression level e
          end)
       params)
    ", ".

(** [formatBlockStatement] given the formatting of a statement at the
    block's level: the blocks' statements that do not format to the empty
    string *)
Definition formatBlockWith (formatStmt : Statement -> string) (block : option (list Statement))
  : list string :=
  match block with
  | None => []
  | Some stmts => nonEmpty (map formatStmt stmts)
  end.

Definition docStringLine (level : nat) (docString : option string) : list string :=
  match docString with
  | Some d => [indentString level +:+ tripleQuote +:+ d +:+ tripleQuote]
  | None => []
  end.

Fixpoint formatStatement (level : nat) (stmt : Statement) {struct stmt} : string :=
  match stmt with
  | SFunctionDefinition node => formatFunctionDefinition level node
  | GrimoireDefinition name inherits docString initMethod methods =>
      Join
        (docStringLine level docString
           ++ [indentString level
                 +:+ match inherits with
                     | Some parent => "grim " +:+ name +:+ "(" +:+ parent +:+ "):"
                     | None => "grim " +:+ name +:+ ":"
                     end]
           ++ match initMethod with
              | Some init => [formatInitMethod (S level) init]
              | None => []
              end
           ++ map (formatFunctionDefinition (S level)) methods)
        NL
  | AssignStatement name operator value =>
      indentString level +:+ formatExpression level name +:+ " "
        +:+ (if String.eqb operator "" then "=" else operator) +:+ " "
        +:+ formatOptExpression level value
  | ExpressionStatement None => EmptyString
  | ExpressionStatement (Some e) => indentString level +:+ formatExpression level e
  | IfStatement condition consequence otherwiseBranches alternative =>
      Join
        ([indentString level +:+ "if " +:+ formatExpression level condition +:+ ":"]
           ++ formatBlockWith (formatStatement (S level)) consequence
           ++ flat_map
                (fun branch =>
                   (indentString level +:+ "otherwise "
                      +:+ formatExpression level (fst branch) +:+ ":")
                   :: formatBlockWith (formatStatement (S level)) (snd branch))
                otherwiseBranches
           ++ match alternative with
              | Some _ =>
                  (indentString level +:+ "else:")
                  :: formatBlockWith (formatStatement (S level)) alternative
              | None => []
              end)
        NL
  | ForStatement variable iterable body alternative =>
      Join
        ([indentString level +:+ "for " +:+ formatExpression level variable +:+ " in "
            +:+ formatExpression level iterable +:+ ":"]
           ++ formatBlockWith (formatStatement (S level)) body
           ++ match alternative with
              | Some _ =>
                  (indentString level +:+ "else:")
                  :: formatBlockWith (formatStatement (S level)) alternative
              | None => []
              end)
        NL
  | WhileStatement condition body =>
      Join
        ([indentString level +:+ "while " +:+ formatExpression level condition +:+ ":"]
           ++ formatBlockWith (formatStatement (S level)) body)
        NL
  | ReturnStatement None => indentString level +:+ "return"
  | ReturnStatement (Some value) =>
      indentString level +:+ "return " +:+ formatExpression level value
  | AttemptStatement tryBlock ensnareClauses resolveBlock =>
      Join
        ([indentString level +:+ "attempt:"]
           ++ formatBlockWith (formatStatement (S level)) tryBlock
           ++ flat_map
                (fun ensnare =>
                   (indentString level +:+ "ensnare"
                      +:+ match fst (fst ensnare) with
                          | Some condition => "(" +:+ formatExpression level condition +:+ ")"
                          | None => EmptyString
                          end
                      +:+ match snd (fst ensnare) with
                          | Some alias => " as " +:+ alias
                          | None => EmptyString
                          end
                      +:+ ":")
                   :: formatBlockWith (formatStatement (S level)) (snd ensnare))
                ensnareClauses
           ++ match resolveBlock with
              | Some _ =>
                  (indentString level +:+ "resolve:")
                  :: formatBlockWith (formatStatement (S level)) resolveBlock
              | None => []
              end)
        NL
  | WithStatement expr variable body =>
      Join
        ([indentString level +:+ "autoclose " +:+ formatExpression level expr +:+ " as "
            +:+ variable +:+ ":"]
           ++ formatBlockWith (formatStatement (S level)) body)
        NL
  | ImportStatement filePath className alias =>
      indentString level +:+ "import "
        +:+ match filePath with Some p => dquote +:+ p +:+ dquote | None => EmptyString end
        +:+ match className with Some c => "." +:+ c | None => EmptyString end
        +:+ match alias with Some al => " as " +:+ al | None => EmptyString end
  | MatchStatement matchValue cases default =>
      Join
        ([indentString level +:+ "match " +:+ formatExpression level matchValue +:+ ":"]
           ++ flat_map
                (fun caseClause =>
                   (indentString (S level) +:+ "case "
                      +:+ formatExpression (S level) (fst caseClause) +:+ ":")
                   :: formatBlockWith (formatStatement (S (S level))) (snd caseClause))
                cases
           ++ match default with
              | Some body =>
                  (indentString (S level) +:+ "default:")
                  :: formatBlockWith (formatStatement (S (S level))) body
              | None => []
              end)
        NL
  | MainStatement body =>
      Join
        ([indentString level +:+ "main:"] ++ formatBlockWith (formatStatement (S level)) body)
        NL
  | GlobalStatement names => indentString level +:+ "global " +:+ Join names ", "
  | BlockStatement _ text => indentString level +:+ text
  | OtherStatement text => indentString level +:+ text
  end

with formatFunctionDefinition (level : nat) (node : FunctionDefinition) {struct node} : string :=
  match node with
  | MkFunctionDefinition name parameters docString body =>
      Join
        (docStringLine level docString
           ++ [indentString level +:+ "spell " +:+ name +:+ "("
                 +:+ formatParameterNodes level parameters +:+ "):"]
           ++ formatBlockWith (formatStatement (S level)) body)
        NL
  end

with formatInitMethod (level : nat) (node : FunctionDefinition) {struct node} : string :=
  match node with
  | MkFunctionDefinition _ parameters docString body =>
      Join
        (docStringLine level docString
           ++ [indentString level +:+ "init(" +:+ formatParameterNodes level parameters +:+ "):"]
           ++ formatBlockWith (formatStatement (S level)) body)
        NL
  end.

Definition formatBlockStatement (level : nat) (block : option (list Statement)) : list string :=
  formatBlockWith (formatStatement level) block.

(** The blank parts that the loop of [formatProgram] appends after the
    statement [stmt], [rest] being the statements after it: nothing after the
    last statement; two after a grimoire that a main block follows; one after
    a function. *)
Definition blankLinesAfter (stmt : Statement) (rest : list Statement) : list string :=
  match rest with
  | [] => []
  | next :: _ =>
      match stmt with
      | GrimoireDefinition _ _ _ _ _ =>
          match next with
          | MainStatement _ => [EmptyString; EmptyString]
          | _ => []
          end
      | SFunctionDefinition _ => [EmptyString]
      | _ => []
      end
  end.

(** The slice [parts] of [formatProgram] *)
Fixpoint formatProgramParts (statements : list Statement) : list string :=
  match statements with
  | [] => []
  | stmt :: rest =>
      nonEmpty [formatStatement 0 stmt] ++ blankLinesAfter stmt rest ++ formatProgramParts rest
  end.

Definition formatProgram (program : Program) : string :=
  Join (formatProgramParts program) NL.

Definition applyFinalFormatting (content : string) : string :=
  let formattedLines :=
    map
      (fun line =>
         if protocol.TrimTrailingWhitespace (options f)
         then TrimRight line (" " +:+ TAB)
         else line)
      (Split content newline) in
  let result := Join formattedLines NL in
  let result := TrimRight result NL +:+ NL in
  let result :=
    if protocol.InsertFinalNewline (options f) && negb (HasSuffix result NL)
    then result +:+ NL
    else result in
  if protocol.TrimFinalNewlines (options f)
  then TrimRight result NL +:+ NL
  else result.

(** The text of the edit, from the parsed program *)
Definition formattedText (program : Program) : string :=
  applyFinalFormatting (formatProgram program).

Variable L : Language.

(** [FormatDocument] of the formatter: the parse errors, or the single edit
    that replaces the whole document *)
Definition FormatDocument (content : string) : list string + list protocol.TextEdit :=
  let program := ParseProgram L content in
  match Errors L content with
  | (_ :: _) as errors => inl errors
  | [] =>
      let formatted := formattedText program in
      let lines := Split content newline in
      let endLine := (List.length lines - 1)%nat in
      let endChar :=
        match lines !! endLine with
        | Some line => String.length line
        | None => O
        end in
      inr [protocol.MkTextEdit
             (protocol.MkRange (protocol.MkPosition 0 0) (protocol.MkPosition endLine endChar))
             formatted]
  end.

End Formatter.

(** [FormatDocument] of the analyzer: no edits for an unknown document or a
    text with parse errors *)
Definition Analyzer_FormatDocument (rangeOrder : forall A : Type, list A -> list A)
    (L : Language) (a : Analyzer) (uri : string) (options : protocol.FormattingOptions)
  : list protocol.TextEdit :=
  match documents a !! uri with
  | None => []
  | Some doc =>
      match FormatDocument rangeOrder (NewCarrionFormatter options) L (Content doc) with
      | inl _ => []
      | inr edits => edits
      end
  end.

(* ===================================================================== *)
(** ** The host: filesystem calls with a log, and the server state *)
(* ===================================================================== *)

(** The part of the filesystem that the package integration looks at *)
Record FileSystem : Type := MkFileSystem {
  fs_dirs : gset string;
  fs_files : gmap string string;
  fs_cwd : option string
}.

(** The calls into package [os], kept in a log so that theorems can say
    which probes an operation performed. *)
Inductive FsCall : Type :=
| Stat (path : string)
| ReadFile (path : string)
| ReadDir (path : string)
| Getwd.

(** The analyzer's [mu sync.RWMutex], as the calling goroutine finds it:
    whether the write lock is held, and how many read locks are held. *)
Record RWMutex : Type := MkRWMutex {
  writer : bool;
  readers : nat
}.

Definition unlocked : RWMutex := MkRWMutex false 0.

(** The mutable state: the analyzer (with the loader and the package
    integration it owns), the analyzer's mutex, the log of filesystem
    calls, and the warnings printed.  The mutex is kept beside the data of
    the analyzer, not inside the record [Analyzer]: the feature providers of
    features.go are embedded as the bodies that they run under the read
    lock, and take the data alone. *)
Record World : Type := MkWorld {
  analyzer : Analyzer;
  mu : RWMutex;
  fsLog : list FsCall;
  warnings : list string
}.

(** How a call ends: it returns a value, or it waits for the mutex for
    ever (the locks of [sync] are not re-entrant, and no other goroutine
    releases a lock that the caller itself holds); both in the state reached. *)
Inductive Outcome (A : Type) : Type :=
| Returns (x : A) (w : World)
| Blocks (w : World).

Arguments Returns {A} x w.
Arguments Blocks {A} w.

Definition Host (A : Type) : Type := World -> Outcome A.

#[export] Instance Host_ret : MRet Host := fun A x w => Returns x w.
#[export] Instance Host_bind : MBind Host :=
  fun A B k m w =>
    match m w with
    | Returns x w' => k x w'
    | Blocks w' => Blocks w'
    end.

Definition getAnalyzer : Host Analyzer := fun w => Returns (analyzer w) w.

Definition modifyAnalyzer (g : Analyzer -> Analyzer) : Host unit :=
  fun w => Returns tt (MkWorld (g (analyzer w)) (mu w) (fsLog w) (warnings w)).

Definition logCall (call : FsCall) : Host unit :=
  fun w => Returns tt (MkWorld (analyzer w) (mu w) (fsLog w ++ [call]) (warnings w)).

Definition warn (message : string) : Host unit :=
  fun w => Returns tt (MkWorld (analyzer w) (mu w) (fsLog w) (warnings w ++ [message])).

Definition setMutex (m : RWMutex) : Host unit :=
  fun w => Returns tt (MkWorld (analyzer w) m (fsLog w) (warnings w)).

(** [a.mu.Lock()]: waits while the write lock or a read lock is held *)
Definition Lock : Host unit :=
  fun w =>
    if writer (mu w) || (0 <? readers (mu w))%nat then Blocks w
    else setMutex (MkRWMutex true (readers (mu w))) w.

Definition Unlock : Host unit :=
  fun w => setMutex (MkRWMutex false (readers (mu w))) w.

(** [a.mu.RLock()]: waits while the write lock is held *)
Definition RLock : Host unit :=
  fun w =>
    if writer (mu w) then Blocks w
    else setMutex (MkRWMutex (writer (mu w)) (S (readers (mu w)))) w.

Definition RUnlock : Host unit :=
  fun w => setMutex (MkRWMutex (writer (mu w)) (Nat.pred (readers (mu w)))) w.

(** [a.mu.Lock(); defer a.mu.Unlock()] around the body of a method: the
    deferred call runs when the body returns. *)
Definition withLock {A : Type} (body : Host A) : Host A :=
  _ ← Lock; x ← body; _ ← Unlock; mret x.

(** [a.mu.RLock(); defer a.mu.RUnlock()] *)
Definition withRLock {A : Type} (body : Host A) : Host A :=
  _ ← RLock; x ← body; _ ← RUnlock; mret x.

(** [for _, x := range xs { body(x) }] *)
Fixpoint forEach {A : Type} (xs : list A) (body : A -> Host unit) : Host unit :=
  match xs with
  | [] => mret tt
  | x :: rest => _ ← body x; forEach rest body
  end.

(** [filepath.Clean] on slash-separated paths *)
Definition cleanStep (rooted : bool) (stack : list string) (component : string) : list string :=
  if String.eqb component ".." then
    match stack with
    | top :: below => if String.eqb top ".." then component :: stack else below
    | [] => if rooted then [] else [component]
    end
  else component :: stack.

Definition filepath_Clean (path : string) : string :=
  let rooted := HasPrefix path "/" in
  let components :=
    List.filter (fun c => negb (String.eqb c "" || String.eqb c "."))
      (Split path "/"%char) in
  let kept := rev (fold_left (cleanStep rooted) components []) in
  let cleaned := (if rooted then "/" else "") +:+ Join kept "/" in
  if String.eqb cleaned "" then "." else cleaned.

(** [filepath.Join]: the empty elements are ignored, the rest is joined
    with slashes and cleaned; no element at all gives the empty string. *)
Definition filepath_Join (elems : list string) : string :=
  match nonEmpty elems with
  | [] => EmptyString
  | kept => filepath_Clean (Join kept "/")
  end.

(** The errors that the package integration returns *)
Inductive error : Type :=
| PackageNotFound (packageName : string)
| NoMainFile (packageName : string)
| ReadPackageFileFailed (path : string)
| ParseErrorsInPackage (packageName : string) (errors : list string)
| GetwdFailed
| ReadFileFailed (path : string)
| ParseErrorsInFile (filePath : string) (errors : list string)
| RelativePackageNotFound (relativePath : string).

(** The text of an error; for the two read failures the message of the
    operating system is replaced by the path. *)
Definition errorText (e : error) : string :=
  match e with
  | PackageNotFound n => "package not found: " +:+ n
  | NoMainFile n => "no main file found for package: " +:+ n
  | ReadPackageFileFailed p => "failed to read package file: " +:+ p
  | ParseErrorsInPackage n errs =>
      "parse errors in package " +:+ n +:+ ": [" +:+ Join errs " " +:+ "]"
  | GetwdFailed => "failed to get current directory"
  | ReadFileFailed p => "failed to read file: " +:+ p
  | ParseErrorsInFile p errs =>
      "parse errors in file " +:+ p +:+ ": [" +:+ Join errs " " +:+ "]"
  | RelativePackageNotFound p => "relative package not found: " +:+ p
  end.

Section Server.

Variable L : Language.
Variable fs : FileSystem.

(** [os.Stat]: [None] when nothing is at the path, else whether it is a
    directory *)
Definition osStat (path : string) : Host (option bool) :=
  _ ← logCall (Stat path);
  mret (if decide (path ∈ fs_dirs fs) then Some true
        else match fs_files fs !! path with Some _ => Some false | None => None end).

Definition osReadFile (path : string) : Host (option string) :=
  _ ← logCall (ReadFile path);
  mret (fs_files fs !! path).

Definition osGetwd : Host (option string) :=
  _ ← logCall Getwd;
  mret (fs_cwd fs).

(** [Analyzer.RefreshDynamicData]: under the write lock,
    [DynamicLoader.RefreshDynamicData] followed by the two assignments *)
Definition RefreshDynamicData : Host unit :=
  withLock
    (modifyAnalyzer
       (fun a =>
          let dl := dynamicLoader a in
          let dl' :=
            MkDynamicLoader (env dl) (runtimeBuiltins L (env dl))
              (runtimeGrimoires L (env dl)) in
          MkAnalyzer (documents a) (dl_builtins dl') (dl_grimoires dl') dl'
            (bifrostIntegration a))).

(** [evaluator.Eval(program, env, nil)] *)
Definition evalInEnvironment (program : Program) : Host unit :=
  modifyAnalyzer
    (fun a =>
       let dl := dynamicLoader a in
       MkAnalyzer (documents a) (builtins a) (carriongGrimoires a)
         (MkDynamicLoader (env dl ++ [program]) (dl_builtins dl) (dl_grimoires dl))
         (bifrostIntegration a)).

Definition markLoaded (packageName : string) : Host unit :=
  modifyAnalyzer
    (fun a =>
       let bi := bifrostIntegration a in
       MkAnalyzer (documents a) (builtins a) (carriongGrimoires a) (dynamicLoader a)
         (MkBifrostIntegration (packagePaths bi)
            (<[packageName := true]> (loadedPackages bi)))).

(** [findPackage]: the first search path with a directory of that name,
    or the empty string *)
Fixpoint findPackageIn (searchPaths : list string) (packageName : string) : Host string :=
  match searchPaths with
  | [] => mret EmptyString
  | searchPath :: rest =>
      let packagePath := filepath_Join [searchPath; packageName] in
      info ← osStat packagePath;
      match info with
      | Some true => mret packagePath
      | _ => findPackageIn rest packageName
      end
  end.

Definition findPackage (packageName : string) : Host string :=
  a ← getAnalyzer;
  findPackageIn (packagePaths (bifrostIntegration a)) packageName.

(** The loop over the alternative locations of the main file *)
Fixpoint firstExisting (alternatives : list string) : Host (option string) :=
  match alternatives with
  | [] => mret None
  | alt :: rest =>
      info ← osStat alt;
      match info with
      | Some _ => mret (Some alt)
      | None => firstExisting rest
      end
  end.

(** Parse, evaluate into the loader's environment and refresh; the parse
    errors if there are any *)
Definition parseAndEvaluate (content : string) : Host (list string) :=
  match Errors L content with
  | (_ :: _) as errors => mret errors
  | [] =>
      _ ← evalInEnvironment (ParseProgram L content);
      _ ← RefreshDynamicData;
      mret []
  end.

Definition LoadPackage (packageName : string) : Host (option error) :=
  a ← getAnalyzer;
  if default false (loadedPackages (bifrostIntegration a) !! packageName) then mret None
  else
    packagePath ← findPackage packageName;
    if String.eqb packagePath "" then mret (Some (PackageNotFound packageName))
    else
      let mainFile := filepath_Join [packagePath; "src"; "main.crl"] in
      info ← osStat mainFile;
      located ←
        match info with
        | Some _ => mret (Some mainFile)
        | None =>
            firstExisting
              [filepath_Join [packagePath; "main.crl"];
               filepath_Join [packagePath; packageName +:+ ".crl"]]
        end;
      match located with
      | None => mret (Some (NoMainFile packageName))
      | Some mainFile =>
          read ← osReadFile mainFile;
          match read with
          | None => mret (Some (ReadPackageFileFailed mainFile))
          | Some content =>
              errors ← parseAndEvaluate content;
              match errors with
              | _ :: _ => mret (Some (ParseErrorsInPackage packageName errors))
              | [] =>
                  _ ← markLoaded packageName;
                  mret None
              end
          end
      end.

Definition loadCarrionFile (filePath : string) : Host (option error) :=
  read ← osReadFile filePath;
  match read with
  | None => mret (Some (ReadFileFailed filePath))
  | Some content =>
      errors ← parseAndEvaluate content;
      match errors with
      | _ :: _ => mret (Some (ParseErrorsInFile filePath errors))
      | [] => mret None
      end
  end.

Definition loadRelativePackage (relativePath : string) : Host (option error) :=
  cwd ← osGetwd;
  match cwd with
  | None => mret (Some GetwdFailed)
  | Some cwd =>
      let absolutePath := filepath_Join [cwd; relativePath] in
      if HasSuffix absolutePath ".crl" then loadCarrionFile absolutePath
      else
        info ← osStat absolutePath;
        match info with
        | Some true =>
            let mainFile := filepath_Join [absolutePath; "main.crl"] in
            info ← osStat mainFile;
            match info with
            | Some _ => loadCarrionFile mainFile
            | None => mret (Some (RelativePackageNotFound relativePath))
            end
        | _ => mret (Some (RelativePackageNotFound relativePath))
        end
  end.

Definition LoadPackageFromImport (importPath : string) : Host (option error) :=
  if HasPrefix importPath "./" || HasPrefix importPath "../"
  then loadRelativePackage importPath
  else
    let packageName := default EmptyString (head (Split importPath "/"%char)) in
    LoadPackage packageName.

(** [AutoLoadImports]: a failed import is reported as a warning *)
Definition AutoLoadImports (doc : Document) : Host unit :=
  forEach (map_to_list (Imports (Symbols doc)))
    (fun entry =>
       let importSym := snd entry in
       if String.eqb (imp_Path importSym) "" then mret tt
       else
         err ← LoadPackageFromImport (imp_Path importSym);
         match err with
         | Some e =>
             warn ("Warning: Failed to load import " +:+ imp_Path importSym +:+ ": "
                     +:+ errorText e)
         | None => mret tt
         end).

Definition getNextVersion (a : Analyzer) (uri : string) : Z :=
  match documents a !! uri with
  | Some doc => wrap64 (Version doc + 1)
  | None => 1
  end.

Definition storeDocument (uri : string) (doc : Document) : Host unit :=
  modifyAnalyzer
    (fun a =>
       MkAnalyzer (<[uri := doc]> (documents a)) (builtins a) (carriongGrimoires a)
         (dynamicLoader a) (bifrostIntegration a)).

(** [UpdateDocument], under the write lock from its first statement to its
    return; [program] is the syntax tree that the caller passes, [None] for
    nil. *)
Definition UpdateDocument (uri content : string) (program : option Program) : Host Document :=
  withLock
    (a ← getAnalyzer;
     let program := match program with Some p => p | None => ParseProgram L content end in
     let tokens := lex L content in
     let symbols := buildSymbolTable a program in
     let doc := MkDocument uri content program tokens symbols (getNextVersion a uri) in
     _ ← storeDocument uri doc;
     _ ← AutoLoadImports doc;
     mret doc).

Definition RemoveDocument (uri : string) : Host unit :=
  withLock
    (modifyAnalyzer
       (fun a =>
          MkAnalyzer (delete uri (documents a)) (builtins a) (carriongGrimoires a)
            (dynamicLoader a) (bifrostIntegration a))).

Definition GetDocument (uri : string) : Host (option Document) :=
  withRLock
    (a ← getAnalyzer;
     mret (documents a !! uri)).

(** The search paths of [getCarrionPackagePaths], given the working
    directory and the home directory when the host reports them *)
Definition getCarrionPackagePaths (cwd home : option string) : list string :=
  match cwd with Some d => [filepath_Join [d; "carrion_modules"]] | None => [] end
  ++ match home with Some h => [filepath_Join [h; ".carrion"; "packages"]] | None => [] end
  ++ ["/usr/local/share/carrion/lib"].

(** [New]: no documents, the tables of the freshly enumerated environment,
    no package loaded *)
Definition New (initialEnv : list Program) (cwd home : option string) : Analyzer :=
  let loader :=
    MkDynamicLoader initialEnv (runtimeBuiltins L initialEnv) (runtimeGrimoires L initialEnv) in
  MkAnalyzer ∅ (dl_builtins loader) (dl_grimoires loader) loader
    (MkBifrostIntegration (getCarrionPackagePaths cwd home) ∅).

End Server.

(* ===================================================================== *)
(** ** Definitions used to state the properties *)
(* ===================================================================== *)

Definition labels (items : list protocol.CompletionItem) : list string :=
  map protocol.Label items.

(** The keys of a table, in the order in which the embedding ranges over it *)
Definition keysOf {V : Type} (table : gmap string V) : list string :=
  map fst (map_to_list table).

(** The method names of a catalog grimoire that may be missing *)
Definition catalogMethodNames (grimoire : option GrimoireInfo) : list string :=
  match grimoire with Some g => keysOf (gi_Spells g) | None => [] end.

(** The method names of a document grimoire that may be missing *)
Definition documentMethodNames (grimoire : option GrimoireSymbol) : list string :=
  match grimoire with Some g => keysOf (gr_Spells g) | None => [] end.

(** The yields of member completion, as a list *)
Definition memberYields (a : Analyzer) (doc : Document) (prefix : string)
  : list (list protocol.CompletionItem) :=
  let objectName := objectBeforeDot prefix in
  yieldCatalogObject a objectName ::
  match Variables (Symbols doc) !! objectName with
  | Some variable =>
      [yieldDocumentGrimoire doc variable; yieldCatalogType a variable;
       yieldPrimitive a variable]
  | None => []
  end.

(** The yields of general completion, as a list *)
Definition generalYields (a : Analyzer) (doc : Document) (prefix : string)
  : list (list protocol.CompletionItem) :=
  let matchToken := extractLastToken prefix in
  [yieldKeywords matchToken; yieldBuiltins a matchToken; yieldCatalogGrimoires a matchToken;
   yieldDocumentGrimoires doc matchToken; yieldDocumentSpells doc matchToken;
   yieldDocumentVariables doc matchToken].

(** No label occurs in two different lists *)
Fixpoint pairwiseDisjoint (lists : list (list string)) : Prop :=
  match lists with
  | [] => True
  | l :: rest => (forall x, x ∈ l -> x ∉ concat rest) /\ pairwiseDisjoint rest
  end.

(** The encoding that the specification describes for semantic tokens:
    line and start column of an emitted token relative to the token emitted
    before it, the column counted from 0 again when the line advances; the
    first emitted token relative to line 0, column 0. *)
Fixpoint deltaEncodedFrom (prevLine prevStart : Z) (tokens : list token.Token) : list Z :=
  match tokens with
  | [] => []
  | tok :: rest =>
      let tokenType := mapTokenToSemanticType (token.Type_ tok) in
      if 0 <=? tokenType then
        let deltaLine := token.Line tok - prevLine in
        let deltaStart :=
          if deltaLine =? 0 then token.Column tok - prevStart else token.Column tok in
        [deltaLine; deltaStart; Z.of_nat (String.length (token.Literal tok)); tokenType; 0]
          ++ deltaEncodedFrom (token.Line tok) (token.Column tok) rest
      else deltaEncodedFrom prevLine prevStart rest
  end.

Definition deltaEncoded (tokens : list token.Token) : list Z :=
  deltaEncodedFrom 0 0 tokens.

(** The names that the specification and the change log list as built-in
    modules *)
Definition builtinModules : list string := ["file"; "os"; "time"; "http"].

Definition storedVersion (uri : string) (w : World) : option Z :=
  Version <$> documents (analyzer w) !! uri.

(** What a computation that starts while the caller holds the write lock
    can do: return a value that satisfies [Q], with the analyzer and the
    mutex as it found them, or wait for ever, with the table of documents as
    it found it and the write lock still held. *)
Definition heldSpec {A : Type} (m : Host A) (Q : A -> Prop) : Prop :=
  forall w, writer (mu w) = true ->
    match m w with
    | Returns x w' => Q x /\ analyzer w' = analyzer w /\ mu w' = mu w
    | Blocks w' =>
        documents (analyzer w') = documents (analyzer w) /\ writer (mu w') = true
    end.

(** The directory that [findPackage] returns on the filesystem [fs]: the
    first search path that has a directory of that name, or the empty
    string *)
Definition packageDirectory (fs : FileSystem) (searchPaths : list string)
    (packageName : string) : string :=
  default EmptyString
    (head
       (List.filter (fun packagePath => bool_decide (packagePath ∈ fs_dirs fs))
          (map (fun searchPath => filepath_Join [searchPath; packageName]) searchPaths))).

(** The expressions that are neither a literal, nor a call, nor an
    identifier *)
Definition otherKind (expr : Expression) : bool :=
  match expr with
  | InfixExpression _ _ _ | PrefixExpression _ _ | IndexExpression _ _
  | DotExpression _ _ | SliceExpression _ _ _ | OtherExpression _ => true
  | _ => false
  end.

Definition emitted (tok : token.Token) : bool :=
  0 <=? mapTokenToSemanticType (token.Type_ tok).

(** Scanning a block only touches the variable table. *)
Definition sameTables (s s' : SymbolTable) : Prop :=
  Spells s' = Spells s /\ Grimoires s' = Grimoires s /\ Imports s' = Imports s.

(** The record that [UpdateDocument] builds in the state [w] *)
Definition updatedRecord (L : Language) (uri content : string) (program : option Program)
    (w : World)
  : Document :=
  let a := analyzer w in
  let program := match program with Some p => p | None => ParseProgram L content end in
  MkDocument uri content program (lex L content) (buildSymbolTable a program)
    (getNextVersion a uri).

(** The probes of [findPackage]: one [os.Stat] per search path *)
Definition probesFor (searchPaths : list string) (packageName : string) : list FsCall :=
  map (fun searchPath => Stat (filepath_Join [searchPath; packageName])) searchPaths.

(** The text after the first pass of [applyFinalFormatting], which takes
    the lines one by one: every line trimmed on the right when the option
    asks for it *)
Definition trimmedLines (f : CarrionFormatter) (content : string) : string :=
  Join
    (map
       (fun line =>
          if protocol.TrimTrailingWhitespace (options f)
          then TrimRight line (" " +:+ TAB)
          else line)
       (Split content newline))
    NL.

(** The text begins with a byte that is neither a blank nor a line end. *)
Definition startsWithText (s : string) : bool :=
  match s with
  | String c _ => negb (inCutset c (" " +:+ TAB +:+ NL))
  | EmptyString => false
  end.


(* ===================================================================== *)
(** ** Concrete data for the examples *)
(* ===================================================================== *)

(** A language implementation that lexes and parses every text to nothing
    and has an empty runtime.  The examples pass their syntax trees and
    tokens explicitly and never depend on it. *)
Definition noLanguage : Language :=
  MkLanguage (fun _ => []) (fun _ => []) (fun _ => []) (fun _ => ∅) (fun _ => ∅).

Definition emptyFileSystem : FileSystem := MkFileSystem ∅ ∅ (Some "/work").

Definition freshAnalyzer : Analyzer :=
  New noLanguage [] (Some "/work") (Some "/home/u").

Definition freshWorld : World := MkWorld freshAnalyzer unlocked [] [].

(** A filesystem with the package [foo] in the first search path, and the
    tree of a document that imports it *)
Definition fooText : string := "spell helper():" +:+ NL +:+ "    return 1".

Definition fooFileSystem : FileSystem :=
  MkFileSystem {["/work/carrion_modules/foo"]}
    {["/work/carrion_modules/foo/src/main.crl" := fooText]} (Some "/work").

Definition importText : string := "import " +:+ dquote +:+ "foo" +:+ dquote.

Definition importProgram : Program := [ImportStatement (Some "foo") None None].

(** The tree of
<<
grim Person:
    init(name):
        self.name = name
    spell greet():
        return 1

spell t():
    p = Person(1)
>> *)
Definition personProgram : Program :=
  [ GrimoireDefinition "Person" None None
      (Some (MkFunctionDefinition "init" [ParamExpression (Identifier "name")] None
               (Some [AssignStatement (DotExpression (Identifier "self") "name") "="
                        (Some (Identifier "name"))])))
      [MkFunctionDefinition "greet" [] None
         (Some [ReturnStatement (Some (IntegerLiteral 1))])];
    SFunctionDefinition
      (MkFunctionDefinition "t" [] None
         (Some [AssignStatement (Identifier "p") "="
                  (Some (CallExpression (Identifier "Person") [IntegerLiteral 1]))])) ].

Definition personText : string :=
"grim Person:
    init(name):
        self.name = name
    spell greet():
        return 1

spell t():
    p = Person(1)
    print(p.
in".

(** The document that [UpdateDocument] stores for that text and tree *)
Definition personDocument : Document :=
  MkDocument "file:///t.crl" personText personProgram []
    (buildSymbolTable freshAnalyzer personProgram) 1.

Definition personAnalyzer : Analyzer :=
  MkAnalyzer {["file:///t.crl" := personDocument]} ∅ ∅ (dynamicLoader freshAnalyzer)
    (bifrostIntegration freshAnalyzer).

Definition identityOrder : forall A : Type, list A -> list A := fun _ l => l.
Definition reverseOrder : forall A : Type, list A -> list A := fun _ l => rev l.

Definition fourSpaces : CarrionFormatter :=
  NewCarrionFormatter (protocol.MkFormattingOptions 4 true false false false).

Definition spellF : FunctionDefinition :=
  MkFunctionDefinition "f" [] None (Some [ReturnStatement (Some (IntegerLiteral 1))]).

Definition spellG : FunctionDefinition :=
  MkFunctionDefinition "g" [] None (Some [ReturnStatement (Some (IntegerLiteral 2))]).

(** The tree of [x = {"a": 1, "b": 2}] *)
Definition hashProgram : Program :=
  [ AssignStatement (Identifier "x") "="
      (Some (HashLiteral [(StringLiteral "a", IntegerLiteral 1);
                          (StringLiteral "b", IntegerLiteral 2)])) ].

(** The canonical text of that program, and the same with the pairs in the
    other order *)
Definition hashText : string :=
  "x = {" +:+ dquote +:+ "a" +:+ dquote +:+ ": 1, " +:+ dquote +:+ "b" +:+ dquote +:+ ": 2}"
    +:+ NL.

Definition hashTextSwapped : string :=
  "x = {" +:+ dquote +:+ "b" +:+ dquote +:+ ": 2, " +:+ dquote +:+ "a" +:+ dquote +:+ ": 1}"
    +:+ NL.

(** A language implementation of which only the parse of [hashText] matters:
    its parser returns [hashProgram] for that text, without errors. *)
Definition hashLanguage : Language :=
  MkLanguage (fun _ => [])
    (fun text => if String.eqb text hashText then hashProgram else [])
    (fun _ => []) (fun _ => ∅) (fun _ => ∅).

Definition tokenX : token.Token := token.MkToken token.IDENT "x" 1 4.
Definition tokenY : token.Token := token.MkToken token.IDENT "y" 1 8.

Definition twoTokenDocument : Document :=
  MkDocument "file:///s.crl" "    x   y" [] [tokenX; tokenY; token.MkToken token.EOF "" 1 9]
    emptySymbolTable 1.

Definition twoTokenAnalyzer : Analyzer :=
  MkAnalyzer {["file:///s.crl" := twoTokenDocument]} ∅ ∅ (dynamicLoader freshAnalyzer)
    (bifrostIntegration freshAnalyzer).

(** The example document and analyzer are what [UpdateDocument] returns and
    leaves behind for the example text and tree. *)
Lemma personDocument_stored :
  UpdateDocument noLanguage emptyFileSystem "file:///t.crl" personText (Some personProgram)
    freshWorld
  = Returns personDocument (MkWorld personAnalyzer unlocked [] []).
Proof. vm_compute. reflexivity. Qed.

(* ===================================================================== *)
(** ** Type inference (C8) *)
(* ===================================================================== *)

Lemma inferTypeWithContext_other a expr symbols :
  otherKind expr = true -> inferTypeWithContext a expr symbols = "unknown".
Proof. destruct expr; simpl; congruence. Qed.

(** C8, as stated, fails: an identifier that names no declared variable is
    inferred as its own name, not as "unknown". *)
Lemma C8_undeclared_identifier_counterexample :
  Variables emptySymbolTable !! "y" = None /\
  inferTypeWithContext freshAnalyzer (Identifier "y") emptySymbolTable = "y" /\
  inferTypeWithContext freshAnalyzer (Identifier "y") emptySymbolTable <> "unknown".
Proof. repeat split; discriminate. Qed.

(** C8, amended: for a right-hand side that is an identifier, inference
    returns the recorded type of the variable of that name when the symbol
    table has one, and the identifier's own name otherwise; a call whose
    callee is not a known grimoire (an identifier that names no grimoire of
    the document or of the catalog, or an expression of any other kind, such
    as the method call [obj.m()]), and every expression that is neither a
    literal, a call nor an identifier, is inferred as "unknown". *)
Theorem C8_identifier_inference (a : Analyzer) (symbols : SymbolTable) (v : string) :
  inferTypeWithContext a (Identifier v) symbols
    = match Variables symbols !! v with
      | Some variable => var_Type variable
      | None => v
      end
  /\ (forall callee args,
        (forall ident, callee = Identifier ident ->
           Grimoires symbols !! ident = None /\ carriongGrimoires a !! ident = None) ->
        inferTypeWithContext a (CallExpression callee args) symbols = "unknown")
  /\ (forall expr, otherKind expr = true -> inferTypeWithContext a expr symbols = "unknown").
Proof.
  split; [reflexivity | split].
  - intros callee args Hunknown.
    destruct callee as [ident| | | | | | | | | | | | | | |]; try reflexivity.
    destruct (Hunknown ident eq_refl) as [Hdoc Hcat]. simpl. by rewrite Hdoc, Hcat.
  - intros expr. apply inferTypeWithContext_other.
Qed.

(* ===================================================================== *)
(** ** The completion prefix (C6) *)
(* ===================================================================== *)

Lemma completionPrefix_past_end content position currentLine :
  Split content newline !! protocol.Line position = Some currentLine ->
  (String.length currentLine < protocol.Character position)%nat ->
  completionPrefix content position = Some EmptyString.
Proof.
  intros Hline Hpast. unfold completionPrefix. rewrite Hline.
  destruct (Nat.leb_spec (protocol.Character position) (String.length currentLine)) as [Hle|_];
    [lia | reflexivity].
Qed.

(** C6, as stated, fails: with the cursor at character 5 of the line "abc"
    the prefix is the empty string, not the line. *)
Lemma C6_cursor_past_end_counterexample :
  Split "abc" newline !! 0%nat = Some "abc" /\
  (String.length "abc" < 5)%nat /\
  completionPrefix "abc" (protocol.MkPosition 0 5) = Some EmptyString /\
  completionPrefix "abc" (protocol.MkPosition 0 5) <> Some "abc".
Proof. repeat split; [simpl; lia | discriminate]. Qed.

(** C6, amended: when the cursor's character position is strictly greater
    than the length of the cursor's line, the prefix is the empty string,
    and the reply is that of general completion for the empty prefix. *)
Theorem C6_cursor_past_end_prefix (a : Analyzer) (uri : string) (doc : Document)
    (position : protocol.Position) (currentLine : string) :
  documents a !! uri = Some doc ->
  Split (Content doc) newline !! protocol.Line position = Some currentLine ->
  (String.length currentLine < protocol.Character position)%nat ->
  completionPrefix (Content doc) position = Some EmptyString /\
  GetCompletions a uri position = getGeneralCompletions a doc EmptyString.
Proof.
  intros Hdoc Hline Hpast.
  pose proof (completionPrefix_past_end _ _ _ Hline Hpast) as Hprefix.
  split; [exact Hprefix |].
  unfold GetCompletions. rewrite Hdoc, Hprefix. reflexivity.
Qed.

Lemma C6_cursor_past_end_prefix_witness :
  completionPrefix (Content personDocument) (protocol.MkPosition 5 3) = Some EmptyString /\
  GetCompletions personAnalyzer "file:///t.crl" (protocol.MkPosition 5 3)
    = getGeneralCompletions personAnalyzer personDocument EmptyString.
Proof.
  apply (C6_cursor_past_end_prefix personAnalyzer "file:///t.crl" personDocument
           (protocol.MkPosition 5 3) EmptyString).
  - reflexivity.
  - reflexivity.
  - simpl. lia.
Defined.

(* ===================================================================== *)
(** ** Semantic tokens (C3) *)
(* ===================================================================== *)

(** Every group of five integers carries the token's own line and column. *)
Lemma semanticTokensOf_absolute tokens :
  semanticTokensOf tokens
    = flat_map
        (fun tok =>
           [token.Line tok; token.Column tok; Z.of_nat (String.length (token.Literal tok));
            mapTokenToSemanticType (token.Type_ tok); 0])
        (List.filter emitted tokens).
Proof.
  induction tokens as [|tok rest IH]; [reflexivity |].
  unfold semanticTokensOf in *. simpl. unfold semanticTokenData at 1, emitted at 1.
  destruct (0 <=? mapTokenToSemanticType (token.Type_ tok)); simpl; by rewrite IH.
Qed.

(** C3 on the code: for two identifiers on line 1, at columns 4 and 8, the
    reply repeats the absolute line 1 and column 8 for the second token,
    where the encoding of the specification has the deltas 0 and 4. *)
Theorem C3_semantic_tokens_absolute :
  GetSemanticTokens twoTokenAnalyzer "file:///s.crl"
    = Some [1; 4; 1; 4; 0;   1; 8; 1; 4; 0] /\
  deltaEncoded (Tokens twoTokenDocument)
    = [1; 4; 1; 4; 0;   0; 4; 1; 4; 0] /\
  GetSemanticTokens twoTokenAnalyzer "file:///s.crl"
    <> Some (deltaEncoded (Tokens twoTokenDocument)).
Proof. repeat split; discriminate. Qed.

(* ===================================================================== *)
(** ** Blank lines between top-level statements (C7) *)
(* ===================================================================== *)

Lemma append_empty_inv (s t : string) : s +:+ t = EmptyString -> s = EmptyString /\ t = EmptyString.
Proof. destruct s; simpl; [auto | discriminate]. Qed.

Lemma Join_nonempty (elems : list string) (sep x : string) :
  x ∈ elems -> x <> EmptyString -> Join elems sep <> EmptyString.
Proof.
  induction elems as [|e rest IH]; intros Hin Hx.
  - by apply elem_of_nil in Hin.
  - destruct rest as [|e' rest'].
    + apply list_elem_of_singleton in Hin. simpl. congruence.
    + change (Join (e :: e' :: rest') sep) with (e +:+ sep +:+ Join (e' :: rest') sep).
      intros Heq. apply append_empty_inv in Heq as [He Heq].
      apply append_empty_inv in Heq as [_ Hrest].
      apply elem_of_cons in Hin as [->|Hin]; [done |].
      by apply IH.
Qed.

(** *** Strings: reversal, trimming, splitting and joining *)

Lemma append_cons (c : ascii) (s t : string) : String c s +:+ t = String c (s +:+ t).
Proof. reflexivity. Qed.

Lemma append_assoc (s t u : string) : (s +:+ t) +:+ u = s +:+ (t +:+ u).
Proof. induction s as [|c s IH]; [reflexivity | by rewrite !append_cons, IH]. Qed.

Lemma append_empty_r (s : string) : s +:+ EmptyString = s.
Proof. induction s as [|c s IH]; [reflexivity | by rewrite append_cons, IH]. Qed.

Lemma rev_app_spec (s acc : string) : String.rev_app s acc = String.rev s +:+ acc.
Proof.
  unfold String.rev. revert acc. induction s as [|c s IH]; intros acc; simpl.
  - reflexivity.
  - rewrite (IH (String c acc)), (IH (String c EmptyString)), append_assoc. reflexivity.
Qed.

Lemma rev_cons (c : ascii) (s : string) :
  String.rev (String c s) = String.rev s +:+ String c EmptyString.
Proof. unfold String.rev at 1. simpl. apply rev_app_spec. Qed.

Lemma rev_append (s t : string) : String.rev (s +:+ t) = String.rev t +:+ String.rev s.
Proof.
  induction s as [|c s IH].
  - change (String.rev t = String.rev t +:+ EmptyString). by rewrite append_empty_r.
  - by rewrite append_cons, !rev_cons, IH, append_assoc.
Qed.

Lemma rev_involutive (s : string) : String.rev (String.rev s) = s.
Proof.
  induction s as [|c s IH]; [reflexivity |].
  by rewrite rev_cons, rev_append, IH.
Qed.

Lemma rev_empty_inv (s : string) : String.rev s = EmptyString -> s = EmptyString.
Proof. intros Hrev. by rewrite <- (rev_involutive s), Hrev. Qed.

Lemma dropLeading_all (p : ascii -> bool) (s t : string) :
  dropLeading p s = EmptyString -> dropLeading p (s +:+ t) = dropLeading p t.
Proof.
  induction s as [|c s IH]; [reflexivity |].
  rewrite append_cons. simpl. destruct (p c); [exact IH | discriminate].
Qed.

Lemma dropLeading_some (p : ascii -> bool) (s t : string) :
  dropLeading p s <> EmptyString -> dropLeading p (s +:+ t) = dropLeading p s +:+ t.
Proof.
  induction s as [|c s IH]; [intros Hempty; by destruct Hempty |].
  rewrite append_cons. simpl. destruct (p c); [exact IH | reflexivity].
Qed.

Lemma dropLeading_idem (p : ascii -> bool) (s : string) :
  dropLeading p (dropLeading p s) = dropLeading p s.
Proof.
  induction s as [|c s IH]; simpl; [reflexivity |].
  destruct (p c) eqn:Hc; [exact IH | simpl; by rewrite Hc].
Qed.

(** Trimming on the right looks at the end of the text only. *)
Lemma TrimRight_app_blank (s t cutset : string) :
  TrimRight t cutset = EmptyString -> TrimRight (s +:+ t) cutset = TrimRight s cutset.
Proof.
  unfold TrimRight. intros Hblank. apply rev_empty_inv in Hblank.
  by rewrite rev_append, dropLeading_all.
Qed.

Lemma TrimRight_app_text (s t cutset : string) :
  TrimRight t cutset <> EmptyString ->
  TrimRight (s +:+ t) cutset = s +:+ TrimRight t cutset.
Proof.
  unfold TrimRight. intros Htext.
  rewrite rev_append, dropLeading_some, rev_append, rev_involutive; [reflexivity |].
  intros Hblank. apply Htext. by rewrite Hblank.
Qed.

Lemma TrimRight_idem (s cutset : string) :
  TrimRight (TrimRight s cutset) cutset = TrimRight s cutset.
Proof. unfold TrimRight. by rewrite rev_involutive, dropLeading_idem. Qed.

Lemma HasSuffix_newline (s : string) : HasSuffix (s +:+ NL) NL = true.
Proof.
  unfold HasSuffix. rewrite rev_append.
  change (String.rev NL) with (String newline EmptyString).
  rewrite append_cons. simpl. by destruct (EmptyString +:+ String.rev s).
Qed.

Lemma splitFrom_app (sep : ascii) (field x y : string) :
  splitFrom sep field (x +:+ String sep y)
    = (splitFrom sep field x ++ splitFrom sep EmptyString y)%list.
Proof.
  revert field. induction x as [|c x IH]; intros field.
  - change (EmptyString +:+ String sep y) with (String sep y). simpl.
    by rewrite Ascii.eqb_refl.
  - rewrite append_cons. simpl.
    destruct (Ascii.eqb c sep); [by rewrite IH | apply IH].
Qed.

Lemma Split_app (x y : string) :
  Split (x +:+ NL +:+ y) newline = (Split x newline ++ Split y newline)%list.
Proof. unfold Split. apply splitFrom_app. Qed.

Lemma splitFrom_nonempty (sep : ascii) (field s : string) : splitFrom sep field s <> [].
Proof.
  revert field. induction s as [|c s IH]; intros field; simpl; [done |].
  destruct (Ascii.eqb c sep); [done | apply IH].
Qed.

Lemma Join_cons (e : string) (rest : list string) (sep : string) :
  rest <> [] -> Join (e :: rest) sep = e +:+ sep +:+ Join rest sep.
Proof. by destruct rest. Qed.

Lemma Join_app (xs ys : list string) (sep : string) :
  xs <> [] -> ys <> [] -> Join (xs ++ ys) sep = Join xs sep +:+ sep +:+ Join ys sep.
Proof.
  intros Hxs Hys. induction xs as [|x xs IH]; [done |].
  destruct xs as [|x' xs].
  - simpl app. by rewrite Join_cons.
  - change ((x :: x' :: xs) ++ ys)%list with (x :: ((x' :: xs) ++ ys))%list.
    rewrite Join_cons by done. rewrite IH by done.
    rewrite (Join_cons x (x' :: xs)) by done.
    by rewrite !append_assoc.
Qed.

Lemma trimmedLines_app (f : CarrionFormatter) (x y : string) :
  trimmedLines f (x +:+ NL +:+ y) = trimmedLines f x +:+ NL +:+ trimmedLines f y.
Proof.
  unfold trimmedLines. rewrite Split_app, map_app.
  apply Join_app; intros Hnil; apply map_eq_nil in Hnil; by apply splitFrom_nonempty in Hnil.
Qed.

Lemma trimmedLines_empty (f : CarrionFormatter) : trimmedLines f EmptyString = EmptyString.
Proof. unfold trimmedLines. simpl. by destruct (protocol.TrimTrailingWhitespace (options f)). Qed.

(** The two option-dependent steps at the end of [applyFinalFormatting]
    never change the text: it ends in exactly one newline already. *)
Lemma applyFinalFormatting_eq (f : CarrionFormatter) (content : string) :
  applyFinalFormatting f content = TrimRight (trimmedLines f content) NL +:+ NL.
Proof.
  unfold applyFinalFormatting, trimmedLines. cbv zeta.
  rewrite HasSuffix_newline, andb_false_r.
  destruct (protocol.TrimFinalNewlines (options f)); [| reflexivity].
  rewrite TrimRight_app_blank by reflexivity. by rewrite TrimRight_idem.
Qed.

Lemma startsWithText_app (s t : string) :
  startsWithText s = true -> startsWithText (s +:+ t) = true.
Proof. by destruct s. Qed.

Lemma startsWithText_Join (x : string) (rest : list string) (sep : string) :
  startsWithText x = true -> startsWithText (Join (x :: rest) sep) = true.
Proof.
  intros Hx. destruct rest as [|y rest]; [exact Hx |].
  rewrite Join_cons by done. by apply startsWithText_app.
Qed.

Lemma splitFrom_head (sep : ascii) (field s : string) :
  exists u rest, splitFrom sep field s = (String.rev field +:+ u) :: rest.
Proof.
  revert field. induction s as [|c s IH]; intros field; simpl.
  - exists EmptyString, []. by rewrite append_empty_r.
  - destruct (Ascii.eqb c sep).
    + exists EmptyString. eexists. by rewrite append_empty_r.
    + destruct (IH (String c field)) as (u & rest & ->).
      exists (String c u), rest. by rewrite rev_cons, append_assoc.
Qed.

Lemma TrimRight_head (c : ascii) (s cutset : string) :
  inCutset c cutset = false -> exists u, TrimRight (String c s) cutset = String c u.
Proof.
  intros Hc. change (String c s) with (String c EmptyString +:+ s).
  destruct (String.eqb_spec (TrimRight s cutset) "") as [Hblank|Htext].
  - rewrite TrimRight_app_blank by exact Hblank.
    exists EmptyString. unfold TrimRight. simpl. rewrite Hc. reflexivity.
  - rewrite TrimRight_app_text by exact Htext. by eexists.
Qed.

Lemma startsWithText_TrimRight (s cutset : string) :
  (forall c, inCutset c cutset = true -> inCutset c (" " +:+ TAB +:+ NL) = true) ->
  startsWithText s = true -> startsWithText (TrimRight s cutset) = true.
Proof.
  intros Hcutset Hs. destruct s as [|c s]; [done |].
  unfold startsWithText in Hs. apply negb_true_iff in Hs.
  destruct (inCutset c cutset) eqn:Hc; [apply Hcutset in Hc; congruence |].
  destruct (TrimRight_head c s cutset Hc) as [u ->].
  unfold startsWithText. by rewrite Hs.
Qed.

Lemma blanks_in_cutset (c : ascii) :
  inCutset c (" " +:+ TAB) = true -> inCutset c (" " +:+ TAB +:+ NL) = true.
Proof.
  simpl. destruct (Ascii.eqb c " "); [done |]. destruct (Ascii.eqb c tab); [done |].
  discriminate.
Qed.

Lemma newline_in_cutset (c : ascii) :
  inCutset c NL = true -> inCutset c (" " +:+ TAB +:+ NL) = true.
Proof.
  simpl. destruct (Ascii.eqb c newline); [intros _ | discriminate].
  by rewrite !orb_true_r.
Qed.

Lemma startsWithText_trimmedLines (f : CarrionFormatter) (s : string) :
  startsWithText s = true -> startsWithText (trimmedLines f s) = true.
Proof.
  intros Hs. destruct s as [|c s]; [done |].
  unfold trimmedLines, Split. simpl splitFrom.
  destruct (Ascii.eqb_spec c newline) as [->|_]; [discriminate |].
  destruct (splitFrom_head newline (String c EmptyString) s) as (u & rest & ->).
  change (String.rev (String c "") +:+ u) with (String c u).
  simpl map. apply startsWithText_Join.
  destruct (protocol.TrimTrailingWhitespace (options f)); [| exact Hs].
  apply startsWithText_TrimRight; [exact blanks_in_cutset | exact Hs].
Qed.

(** A text that begins with a visible byte has something left when it is
    trimmed line by line and at its end. *)
Lemma trimmed_text_nonempty (f : CarrionFormatter) (s : string) :
  startsWithText s = true -> TrimRight (trimmedLines f s) NL <> EmptyString.
Proof.
  intros Hs Hempty.
  pose proof (startsWithText_TrimRight (trimmedLines f s) NL newline_in_cutset
                (startsWithText_trimmedLines f s Hs)) as Hstarts.
  by rewrite Hempty in Hstarts.
Qed.

Section BlankLines.

Variable rangeOrder : forall A : Type, list A -> list A.
Variable f : CarrionFormatter.

Lemma formatFunctionDefinition_nonempty level node :
  formatFunctionDefinition rangeOrder f level node <> EmptyString.
Proof.
  destruct node as [name parameters docString body]. simpl.
  apply Join_nonempty with
    (x := indentString f level +:+ "spell " +:+ name +:+ "("
            +:+ formatParameterNodes rangeOrder f level parameters +:+ "):").
  - rewrite elem_of_app. right. apply list_elem_of_here.
  - intros Heq. apply append_empty_inv in Heq as [_ Heq]. discriminate.
Qed.

Lemma nonEmpty_function node :
  nonEmpty [formatStatement rangeOrder f 0 (SFunctionDefinition node)]
    = [formatStatement rangeOrder f 0 (SFunctionDefinition node)].
Proof.
  unfold nonEmpty. simpl.
  destruct (String.eqb_spec (formatFunctionDefinition rangeOrder f 0 node) "") as [Heq|_];
    [by apply formatFunctionDefinition_nonempty in Heq | reflexivity].
Qed.

Lemma blankLinesAfter_head stmt next rest rest' :
  blankLinesAfter stmt (next :: rest) = blankLinesAfter stmt (next :: rest').
Proof. reflexivity. Qed.

(** What is emitted before a statement does not depend on what follows it. *)
Lemma formatProgramParts_prefix before stmt :
  exists parts, forall rest,
    formatProgramParts rangeOrder f (before ++ stmt :: rest)
      = (parts ++ formatProgramParts rangeOrder f (stmt :: rest))%list.
Proof.
  induction before as [|first before IH].
  - exists []. reflexivity.
  - destruct IH as [parts IH].
    exists (nonEmpty [formatStatement rangeOrder f 0 first]
              ++ blankLinesAfter first (before ++ [stmt]) ++ parts)%list.
    intros rest. simpl app at 1.
    change (formatProgramParts rangeOrder f (first :: before ++ stmt :: rest))
      with (nonEmpty [formatStatement rangeOrder f 0 first]
              ++ blankLinesAfter first (before ++ stmt :: rest)
              ++ formatProgramParts rangeOrder f (before ++ stmt :: rest)).
    rewrite IH, <- !app_assoc.
    do 2 f_equal. destruct before; reflexivity.
Qed.

Lemma indentString_0 : indentString f 0 = EmptyString.
Proof. unfold indentString. by destruct (insertSpaces f). Qed.

(** The text of a function definition at the top level begins with its
    docstring or with the keyword [spell]. *)
Lemma startsWithText_function node :
  startsWithText (formatFunctionDefinition rangeOrder f 0 node) = true.
Proof.
  destruct node as [name parameters docString body]. simpl.
  destruct docString as [d|]; unfold docStringLine; cbn [app];
    apply startsWithText_Join; by rewrite indentString_0.
Qed.

Lemma formattedText_parts program :
  formattedText rangeOrder f program
    = TrimRight (trimmedLines f (Join (formatProgramParts rangeOrder f program) NL)) NL +:+ NL.
Proof. unfold formattedText, formatProgram. apply applyFinalFormatting_eq. Qed.

Lemma trimmedLines_after (parts rest : list string) :
  rest <> [] ->
  trimmedLines f (Join (parts ++ rest) NL)
    = match parts with
      | [] => EmptyString
      | _ :: _ => trimmedLines f (Join parts NL) +:+ NL
      end +:+ trimmedLines f (Join rest NL).
Proof.
  intros Hrest. destruct parts as [|part parts]; [reflexivity |].
  rewrite Join_app by done. by rewrite trimmedLines_app, !append_assoc.
Qed.

(** C7, amended: in the formatted output, the text of a top-level function
    definition that is not the last top-level statement is followed by a
    blank line and by what the statements after it print, whatever the next
    statement is, whenever they print anything but line ends (and, when
    trailing whitespace is trimmed, blanks at the end of lines); they always
    do when the next statement is a function definition, so that a blank
    line separates two consecutive top-level functions.  When the statements
    after the function print nothing else, the output is that of the program
    that ends at the function: the function's text and one newline.  What
    precedes the function has no influence. *)
Theorem C7_blank_line_after_function (before : list Statement) (node : FunctionDefinition) :
  let function :=
    trimmedLines f (formatStatement rangeOrder f 0 (SFunctionDefinition node)) in
  exists above,
    function <> EmptyString /\
    formattedText rangeOrder f (before ++ [SFunctionDefinition node])
      = TrimRight (above +:+ function) NL +:+ NL /\
    (forall next rest,
       let below :=
         TrimRight (trimmedLines f (formatProgram rangeOrder f (next :: rest))) NL in
       formattedText rangeOrder f (before ++ SFunctionDefinition node :: next :: rest)
         = if String.eqb below ""
           then formattedText rangeOrder f (before ++ [SFunctionDefinition node])
           else above +:+ function +:+ NL +:+ NL +:+ below +:+ NL) /\
    (forall node' rest,
       TrimRight
         (trimmedLines f (formatProgram rangeOrder f (SFunctionDefinition node' :: rest))) NL
         <> EmptyString).
Proof.
  intros function.
  destruct (formatProgramParts_prefix before (SFunctionDefinition node)) as [parts Hparts].
  exists (match parts with
          | [] => EmptyString
          | _ :: _ => trimmedLines f (Join parts NL) +:+ NL
          end).
  set (above := match parts with
                | [] => EmptyString
                | _ :: _ => trimmedLines f (Join parts NL) +:+ NL
                end).
  assert (formattedText rangeOrder f (before ++ [SFunctionDefinition node])
            = TrimRight (above +:+ function) NL +:+ NL) as Hlast.
  { rewrite formattedText_parts, Hparts.
    change (formatProgramParts rangeOrder f [SFunctionDefinition node])
      with (nonEmpty [formatStatement rangeOrder f 0 (SFunctionDefinition node)] ++ [] ++ []).
    rewrite nonEmpty_function. simpl app at 2.
    by rewrite trimmedLines_after. }
  split; [| split; [exact Hlast | split]].
  - intros Hempty.
    pose proof (startsWithText_trimmedLines f _ (startsWithText_function node)) as Hstarts.
    change (formatFunctionDefinition rangeOrder f 0 node)
      with (formatStatement rangeOrder f 0 (SFunctionDefinition node)) in Hstarts.
    fold function in Hstarts. by rewrite Hempty in Hstarts.
  - intros next rest below.
    rewrite formattedText_parts, Hparts.
    change (formatProgramParts rangeOrder f (SFunctionDefinition node :: next :: rest))
      with (nonEmpty [formatStatement rangeOrder f 0 (SFunctionDefinition node)]
              ++ [EmptyString] ++ formatProgramParts rangeOrder f (next :: rest)).
    rewrite nonEmpty_function.
    rewrite trimmedLines_after by done. fold above.
    unfold below, formatProgram.
    set (F := formatStatement rangeOrder f 0 (SFunctionDefinition node)) in *.
    destruct (formatProgramParts rangeOrder f (next :: rest)) as [|part following].
    + simpl app. change (Join [F; ""] NL) with (F +:+ NL +:+ EmptyString).
      rewrite trimmedLines_app, !trimmedLines_empty. fold function.
      change (TrimRight "" NL) with EmptyString. simpl String.eqb. cbv iota.
      rewrite Hlast. f_equal.
      rewrite <- append_assoc. by apply TrimRight_app_blank.
    + set (R := part :: following).
      change ([F] ++ [""] ++ R)%list with (F :: "" :: R).
      rewrite (Join_cons F) by done. rewrite (Join_cons "") by done.
      rewrite !trimmedLines_app, trimmedLines_empty. fold function.
      change (Join R NL) with (Join (part :: following) NL).
      set (B := trimmedLines f (Join (part :: following) NL)).
      destruct (String.eqb_spec (TrimRight B NL) "") as [Hblank|Htext].
      * rewrite Hlast. f_equal.
        rewrite <- (append_assoc above function). apply TrimRight_app_blank.
        change (NL +:+ "" +:+ NL +:+ B) with ((NL +:+ NL) +:+ B).
        by rewrite TrimRight_app_blank.
      * change (NL +:+ "" +:+ NL +:+ B) with (NL +:+ NL +:+ B).
        rewrite <- !append_assoc. rewrite TrimRight_app_text by exact Htext.
        by rewrite !append_assoc.
  - intros node' rest. apply trimmed_text_nonempty.
    unfold formatProgram.
    change (formatProgramParts rangeOrder f (SFunctionDefinition node' :: rest))
      with (nonEmpty [formatStatement rangeOrder f 0 (SFunctionDefinition node')]
              ++ blankLinesAfter (SFunctionDefinition node') rest
              ++ formatProgramParts rangeOrder f rest).
    rewrite nonEmpty_function. simpl app.
    apply startsWithText_Join. apply startsWithText_function.
Qed.

End BlankLines.

(** C7, as stated, fails: between the two consecutive top-level functions
    [f] and [g] the formatter inserts a blank line, and the blank line is in
    the formatted output. *)
Lemma C7_consecutive_functions_counterexample :
  formatProgramParts identityOrder fourSpaces
      [SFunctionDefinition spellF; SFunctionDefinition spellG]
    = [ "spell f():" +:+ NL +:+ "    return 1";
        EmptyString;
        "spell g():" +:+ NL +:+ "    return 2" ]
  /\ formatProgram identityOrder fourSpaces
       [SFunctionDefinition spellF; SFunctionDefinition spellG]
     = "spell f():" +:+ NL +:+ "    return 1" +:+ NL +:+ NL
         +:+ "spell g():" +:+ NL +:+ "    return 2"
  /\ formattedText identityOrder fourSpaces
       [SFunctionDefinition spellF; SFunctionDefinition spellG]
     = "spell f():" +:+ NL +:+ "    return 1" +:+ NL +:+ NL
         +:+ "spell g():" +:+ NL +:+ "    return 2" +:+ NL.
Proof. repeat split; vm_compute; reflexivity. Qed.

(* ===================================================================== *)
(** ** Methods in the flat function table (C10) *)
(* ===================================================================== *)

Lemma sameTables_refl s : sameTables s s.
Proof. by repeat split. Qed.

Lemma sameTables_trans s1 s2 s3 : sameTables s1 s2 -> sameTables s2 s3 -> sameTables s1 s3.
Proof. intros (?&?&?) (?&?&?). repeat split; congruence. Qed.

Lemma analyzeVariable_sameTables a name value symbols :
  sameTables symbols (analyzeVariable a name value symbols).
Proof. destruct name; simpl; by repeat split. Qed.

Lemma fold_sameTables (scan : Statement -> SymbolTable -> SymbolTable) stmts :
  Forall (fun stmt => forall symbols, sameTables symbols (scan stmt symbols)) stmts ->
  forall symbols, sameTables symbols (fold_left (fun acc stmt => scan stmt acc) stmts symbols).
Proof.
  induction 1 as [|stmt rest Hstmt _ IH]; intros symbols; simpl.
  - apply sameTables_refl.
  - eapply sameTables_trans; [apply Hstmt | apply IH].
Qed.

Lemma analyzeBlockItem_sameTables a :
  forall stmt symbols, sameTables symbols (analyzeBlockItem a stmt symbols).
Proof.
  fix IH 1.
  intros stmt symbols.
  destruct stmt as [ | | name op value | | stmts text | cond cons others alt
                   | var iter body alt | cond body | | | | | | | | ];
    try apply sameTables_refl.
  - apply analyzeVariable_sameTables.
  - simpl. apply fold_sameTables.
    induction stmts as [|s rest IHrest]; constructor; [apply IH | exact IHrest].
  - simpl. apply sameTables_trans with (scanBlock (analyzeBlockItem a) cons symbols).
    + destruct cons as [stmts|]; simpl; [apply fold_sameTables | apply sameTables_refl].
      induction stmts as [|s rest IHrest]; constructor; [apply IH | exact IHrest].
    + destruct alt as [stmts|]; simpl; [apply fold_sameTables | apply sameTables_refl].
      induction stmts as [|s rest IHrest]; constructor; [apply IH | exact IHrest].
  - simpl. destruct body as [stmts|]; simpl; [apply fold_sameTables | apply sameTables_refl].
    induction stmts as [|s rest IHrest]; constructor; [apply IH | exact IHrest].
  - simpl. destruct body as [stmts|]; simpl; [apply fold_sameTables | apply sameTables_refl].
    induction stmts as [|s rest IHrest]; constructor; [apply IH | exact IHrest].
Qed.

Lemma analyzeBody_sameTables a body symbols :
  sameTables symbols (analyzeBody a body symbols).
Proof.
  destruct body as [block|]; simpl; [| apply sameTables_refl].
  apply fold_sameTables, Forall_forall. intros stmt _. apply analyzeBlockItem_sameTables.
Qed.

Lemma analyzeBody_Spells a body symbols :
  Spells (analyzeBody a body symbols) = Spells symbols.
Proof. apply analyzeBody_sameTables. Qed.

Lemma analyzeMethods_snoc a grimoire methods method st :
  analyzeMethods a grimoire (methods ++ [method]) st
    = let st1 := analyzeMethods a grimoire methods st in
      let spell := methodSpellOf grimoire method in
      let symbols := analyzeBody a (fnBody method) (snd st1) in
      (<[sp_Name spell := spell]> (fst st1),
       setSpells symbols (<[sp_Name spell := spell]> (Spells symbols))).
Proof. unfold analyzeMethods. by rewrite fold_left_app. Qed.

(** The loop over the methods leaves, under each method name, the symbol of
    a method of that name in both tables, and leaves the other names alone. *)
Lemma analyzeMethods_spec a grimoire methods st :
  let st' := analyzeMethods a grimoire methods st in
  (forall method, method ∈ methods ->
     exists spell,
       Spells (snd st') !! fnName method = Some spell /\
       fst st' !! fnName method = Some spell /\
       sp_Grimoire spell = grimoire /\ sp_Name spell = fnName method /\
       sp_IsInit spell = false)
  /\ (forall n, (forall method, method ∈ methods -> fnName method <> n) ->
        Spells (snd st') !! n = Spells (snd st) !! n /\ fst st' !! n = fst st !! n).
Proof.
  induction methods as [|last methods IH] using rev_ind; simpl.
  - split; [intros method Hin; by apply elem_of_nil in Hin | done].
  - rewrite analyzeMethods_snoc. simpl in *.
    set (st1 := analyzeMethods a grimoire methods st) in *.
    destruct IH as [IHin IHout]. split.
    + intros method Hin. rewrite analyzeBody_Spells.
      destruct (decide (fnName last = fnName method)) as [Heq|Hne].
      * exists (methodSpellOf grimoire last). rewrite <- Heq.
        rewrite !lookup_insert_eq. by repeat split.
      * rewrite !lookup_insert_ne by done.
        apply elem_of_app in Hin as [Hin|Hin]; [by apply IHin |].
        apply list_elem_of_singleton in Hin. by subst.
    + intros n Hout. rewrite analyzeBody_Spells.
      assert (fnName last <> n) as Hlast by (apply Hout, elem_of_app; right; by left).
      rewrite !lookup_insert_ne by done.
      apply IHout. intros method Hin. apply Hout, elem_of_app. by left.
Qed.

(** C10: after the symbol extractor has processed a grimoire definition,
    the document's flat function table holds, under every method's bare
    name, the symbol of a method of that name whose owner is the grimoire
    (the same symbol as in the grimoire's own method table) whatever the
    table held under that name before; under "init" it holds a symbol owned
    by the grimoire when the definition has a constructor, the
    constructor's own symbol unless a method is itself called "init"; in
    particular a top-level function of the same name that was entered
    before is replaced by the method. *)
Theorem C10_methods_in_flat_table (a : Analyzer) (name : string)
    (inherits docString : option string) (initMethod : option FunctionDefinition)
    (methods : list FunctionDefinition) (symbols : SymbolTable) :
  let symbols' := analyzeGrimoire a name inherits docString initMethod methods symbols in
  (forall method, method ∈ methods ->
     exists spell,
       Spells symbols' !! fnName method = Some spell /\
       sp_Grimoire spell = name /\ sp_Name spell = fnName method /\
       (gr_Spells <$> Grimoires symbols' !! name) ≫= (fun own => own !! fnName method)
         = Some spell)
  /\ (forall init, initMethod = Some init ->
        exists spell,
          Spells symbols' !! "init" = Some spell /\ sp_Grimoire spell = name /\
          ((forall method, method ∈ methods -> fnName method <> "init") ->
           spell = initSpellOf name init /\ sp_IsInit spell = true))
  /\ (forall fn method, method ∈ methods -> fnName fn = fnName method ->
        exists spell,
          Spells (analyzeGrimoire a name inherits docString initMethod methods
                    (analyzeSpell a fn symbols)) !! fnName fn = Some spell /\
          sp_Grimoire spell = name).
Proof.
  assert (Hmethods : forall symbols0 method, method ∈ methods ->
            exists spell,
              Spells (analyzeGrimoire a name inherits docString initMethod methods symbols0)
                !! fnName method = Some spell /\
              sp_Grimoire spell = name /\ sp_Name spell = fnName method /\
              (gr_Spells <$> Grimoires
                 (analyzeGrimoire a name inherits docString initMethod methods symbols0)
                 !! name) ≫= (fun own => own !! fnName method) = Some spell).
  { intros symbols0 method Hin. unfold analyzeGrimoire.
    set (afterInit := match initMethod with Some _ => _ | None => _ end).
    destruct (analyzeMethods_spec a name methods (∅, snd afterInit)) as [Hspec _].
    destruct (Hspec method Hin) as (spell & Hflat & Hown & Hgr & Hname & _).
    exists spell. simpl. rewrite lookup_insert_eq. simpl. by repeat split. }
  simpl. split; [apply Hmethods | split].
  - intros init ->. unfold analyzeGrimoire.
    set (afterInit := (Some (initSpellOf name init), _)).
    destruct (analyzeMethods_spec a name methods (∅, snd afterInit)) as [Hin Hout].
    destruct (decide (Exists (fun method => fnName method = "init") methods)) as [Hex|Hno].
    + apply Exists_exists in Hex as (method & Hmem & Hnamed).
      destruct (Hin method Hmem) as (spell & Hflat & _ & Hgr & _ & _).
      rewrite Hnamed in Hflat.
      exists spell. split; [exact Hflat | split; [exact Hgr |]].
      intros Hall. by apply Hall in Hmem.
    + assert (Hall : forall method, method ∈ methods -> fnName method <> "init").
      { intros method Hmem Hnamed. apply Hno, Exists_exists. eauto. }
      destruct (Hout "init" Hall) as [Hflat _].
      exists (initSpellOf name init). split; [| by repeat split].
      etrans; [exact Hflat |]. apply lookup_insert_eq.
  - intros fn method Hmem Hsame. rewrite Hsame.
    destruct (Hmethods (analyzeSpell a fn symbols) method Hmem) as (spell & Hflat & Hgr & _).
    eauto.
Qed.

Lemma C10_methods_in_flat_table_witness :
  exists spell,
    Spells (analyzeGrimoire freshAnalyzer "Person" None None None [spellG]
              (analyzeSpell freshAnalyzer spellG emptySymbolTable)) !! "g" = Some spell /\
    sp_Grimoire spell = "Person".
Proof.
  apply (proj2 (proj2 (C10_methods_in_flat_table freshAnalyzer "Person" None None None
                         [spellG] emptySymbolTable)) spellG spellG).
  - apply list_elem_of_here.
  - reflexivity.
Defined.

(* ===================================================================== *)
(** ** The document store and the analyzer's mutex (C9) *)
(* ===================================================================== *)

Lemma heldSpec_ret {A : Type} (x : A) (Q : A -> Prop) :
  Q x -> heldSpec (mret x : Host A) Q.
Proof. intros HQ w _. by repeat split. Qed.

Lemma heldSpec_ret_any {A : Type} (x : A) : heldSpec (mret x : Host A) (fun _ => True).
Proof. by apply heldSpec_ret. Qed.

Lemma heldSpec_bind {A B : Type} (m : Host A) (k : A -> Host B)
    (P : A -> Prop) (Q : B -> Prop) :
  heldSpec m P -> (forall x, P x -> heldSpec (k x) Q) -> heldSpec (m ≫= k) Q.
Proof.
  intros Hm Hk w Hheld. unfold mbind, Host_bind.
  specialize (Hm w Hheld). destruct (m w) as [x w1|w1]; [| exact Hm].
  destruct Hm as (HP & Ha & Hmu).
  assert (writer (mu w1) = true) as Hheld1 by (by rewrite Hmu).
  specialize (Hk x HP w1 Hheld1).
  destruct (k x w1) as [y w2|w2].
  - destruct Hk as (HQ & Ha2 & Hmu2). repeat split; [exact HQ | congruence | congruence].
  - destruct Hk as [Hdocs Hw]. split; [by rewrite Hdocs, Ha | exact Hw].
Qed.

Lemma heldSpec_logCall call : heldSpec (logCall call) (fun _ => True).
Proof. intros w _. by repeat split. Qed.

Lemma heldSpec_warn message : heldSpec (warn message) (fun _ => True).
Proof. intros w _. by repeat split. Qed.

Lemma heldSpec_getAnalyzer : heldSpec getAnalyzer (fun _ => True).
Proof. intros w _. by repeat split. Qed.

(** A method that takes the write lock waits for ever when its caller
    already holds it. *)
Lemma heldSpec_withLock {A : Type} (body : Host A) (Q : A -> Prop) :
  heldSpec (withLock body) Q.
Proof.
  intros w Hheld. unfold withLock, mbind, Host_bind, Lock. rewrite Hheld. simpl.
  by split.
Qed.

Lemma heldSpec_forEach {A : Type} (xs : list A) (body : A -> Host unit) :
  (forall x, heldSpec (body x) (fun _ => True)) ->
  heldSpec (forEach xs body) (fun _ => True).
Proof.
  intros Hbody. induction xs as [|x rest IH]; simpl.
  - apply heldSpec_ret_any.
  - apply heldSpec_bind with (P := fun _ => True); [apply Hbody | intros _ _; exact IH].
Qed.

Create HintDb held discriminated.

#[local] Hint Resolve heldSpec_ret_any heldSpec_logCall heldSpec_warn heldSpec_getAnalyzer
  : held.

Ltac held_step :=
  first
    [ match goal with
      | H : ?x <> ?x |- _ => destruct (H eq_refl)
      end
    | solve [eauto with held]
    | progress cbv zeta
    | eapply heldSpec_bind; [solve [eauto with held] | intros ? ?]
    | eapply heldSpec_bind with (P := fun _ => True); [| intros ? _]
    | match goal with
      | |- heldSpec (match ?x with _ => _ end) _ => destruct x
      | |- heldSpec (if ?b then _ else _) _ => destruct b
      end ].

Ltac held := repeat held_step.

Section StoreFacts.

Variable L : Language.
Variable fs : FileSystem.

Lemma heldSpec_osStat path : heldSpec (osStat fs path) (fun _ => True).
Proof. unfold osStat. held. Qed.

Lemma heldSpec_osReadFile path : heldSpec (osReadFile fs path) (fun _ => True).
Proof. unfold osReadFile. held. Qed.

Lemma heldSpec_osGetwd : heldSpec (osGetwd fs) (fun _ => True).
Proof. unfold osGetwd. held. Qed.

#[local] Hint Resolve heldSpec_osStat heldSpec_osReadFile heldSpec_osGetwd : held.

Lemma heldSpec_findPackageIn searchPaths packageName :
  heldSpec (findPackageIn fs searchPaths packageName) (fun _ => True).
Proof. induction searchPaths as [|searchPath rest IH]; simpl; held. Qed.

Lemma heldSpec_firstExisting alternatives :
  heldSpec (firstExisting fs alternatives) (fun _ => True).
Proof. induction alternatives as [|alt rest IH]; simpl; held. Qed.

(** While the caller holds the write lock, parsing and evaluating a text
    returns only with parse errors: a text without parse errors is evaluated
    into the loader's environment, and then [RefreshDynamicData] waits for
    the lock. *)
Lemma heldSpec_parseAndEvaluate content :
  heldSpec (parseAndEvaluate L content) (fun errors => errors <> []).
Proof.
  unfold parseAndEvaluate. destruct (Errors L content) as [|e errors].
  - intros w Hheld.
    unfold mbind, Host_bind, evalInEnvironment, modifyAnalyzer, RefreshDynamicData,
      withLock, mbind, Host_bind, Lock.
    simpl. rewrite Hheld. simpl. by split.
  - by apply heldSpec_ret.
Qed.

#[local] Hint Resolve heldSpec_findPackageIn heldSpec_firstExisting
  heldSpec_parseAndEvaluate : held.

Lemma heldSpec_LoadPackage packageName :
  heldSpec (LoadPackage L fs packageName) (fun _ => True).
Proof. unfold LoadPackage, findPackage. held. Qed.

Lemma heldSpec_loadCarrionFile filePath :
  heldSpec (loadCarrionFile L fs filePath) (fun _ => True).
Proof. unfold loadCarrionFile. held. Qed.

#[local] Hint Resolve heldSpec_LoadPackage heldSpec_loadCarrionFile : held.

Lemma heldSpec_loadRelativePackage relativePath :
  heldSpec (loadRelativePackage L fs relativePath) (fun _ => True).
Proof. unfold loadRelativePackage. held. Qed.

#[local] Hint Resolve heldSpec_loadRelativePackage : held.

Lemma heldSpec_LoadPackageFromImport importPath :
  heldSpec (LoadPackageFromImport L fs importPath) (fun _ => True).
Proof. unfold LoadPackageFromImport. held. Qed.

#[local] Hint Resolve heldSpec_LoadPackageFromImport : held.

(** Called from [UpdateDocument], [AutoLoadImports] loads nothing: it
    returns with the analyzer as it found it, or it waits for ever. *)
Lemma heldSpec_AutoLoadImports doc :
  heldSpec (AutoLoadImports L fs doc) (fun _ => True).
Proof. unfold AutoLoadImports. apply heldSpec_forEach. intros entry. held. Qed.

(** What a call of [UpdateDocument] that finds the mutex free does: it
    returns the new record and leaves it in the table, the rest of the
    analyzer and the mutex as before; or it stores the record and then waits
    for ever, the write lock held. *)
Lemma UpdateDocument_outcome uri content program w :
  mu w = unlocked ->
  let record := updatedRecord L uri content program w in
  match UpdateDocument L fs uri content program w with
  | Returns doc w' =>
      doc = record /\
      analyzer w'
        = MkAnalyzer (<[uri := record]> (documents (analyzer w))) (builtins (analyzer w))
            (carriongGrimoires (analyzer w)) (dynamicLoader (analyzer w))
            (bifrostIntegration (analyzer w)) /\
      mu w' = unlocked
  | Blocks w' =>
      documents (analyzer w') = <[uri := record]> (documents (analyzer w)) /\
      writer (mu w') = true
  end.
Proof.
  intros Hmu. unfold UpdateDocument, updatedRecord, withLock.
  unfold mbind at 1, Host_bind at 1. unfold Lock. rewrite Hmu. simpl.
  unfold mbind, Host_bind, getAnalyzer, storeDocument, modifyAnalyzer, mret, Host_ret.
  cbn beta iota zeta. simpl analyzer. simpl mu.
  match goal with
  | |- context [AutoLoadImports L fs ?doc ?w1] =>
      pose proof (heldSpec_AutoLoadImports doc w1 eq_refl) as Hheld;
      destruct (AutoLoadImports L fs doc w1) as [[] w2|w2]
  end.
  - destruct Hheld as (_ & Ha & Hmu2). simpl in Ha, Hmu2.
    unfold Unlock, setMutex. simpl. rewrite Hmu2. simpl. by repeat split.
  - exact Hheld.
Qed.

(** When the update returns, the store holds the record that was returned:
    its text is the text passed, and its version is the stored version plus
    one, or 1 when the URI had no record. *)
Lemma UpdateDocument_returns uri content program w doc w' :
  mu w = unlocked ->
  UpdateDocument L fs uri content program w = Returns doc w' ->
  GetDocument uri w' = Returns (Some doc) w' /\
  Content doc = content /\
  Version doc
    = match storedVersion uri w with Some previous => wrap64 (previous + 1) | None => 1 end.
Proof.
  intros Hmu Hreturns.
  pose proof (UpdateDocument_outcome uri content program w Hmu) as Hout.
  rewrite Hreturns in Hout. destruct Hout as (-> & Ha & Hmu').
  split; [| split].
  - unfold GetDocument, withRLock, mbind, Host_bind, RLock, RUnlock, setMutex, getAnalyzer,
      mret, Host_ret.
    cbn beta. rewrite Hmu'. simpl. rewrite Ha. simpl. rewrite lookup_insert_eq.
    destruct w' as [a' m' log' warnings']. simpl in *. by subst.
  - reflexivity.
  - unfold updatedRecord, getNextVersion, storedVersion. simpl.
    by destruct (documents (analyzer w) !! uri).
Qed.

Lemma findPackageIn_spec searchPaths packageName w :
  exists w',
    findPackageIn fs searchPaths packageName w
      = Returns (packageDirectory fs searchPaths packageName) w' /\
    analyzer w' = analyzer w /\ mu w' = mu w.
Proof.
  revert w. induction searchPaths as [|searchPath rest IH]; intros w.
  - exists w. by repeat split.
  - simpl. unfold osStat, logCall, mbind, Host_bind, mret, Host_ret. simpl.
    unfold packageDirectory. simpl.
    destruct (decide (filepath_Join [searchPath; packageName] ∈ fs_dirs fs)) as [Hin|Hout].
    + rewrite bool_decide_eq_true_2 by exact Hin. simpl.
      eexists. by repeat split.
    + rewrite bool_decide_eq_false_2 by exact Hout.
      destruct (IH (MkWorld (analyzer w) (mu w)
                      (fsLog w ++ [Stat (filepath_Join [searchPath; packageName])])
                      (warnings w))) as (w' & Hfind & Ha & Hmu).
      exists w'.
      destruct (fs_files fs !! filepath_Join [searchPath; packageName]);
        by repeat split.
Qed.

(** A package that is not marked as loaded, has a directory in a search
    path and a main file [src/main.crl] without parse errors, is evaluated;
    the refresh that follows waits for ever when the caller holds the write
    lock. *)
Lemma LoadPackage_blocks packageName text w :
  writer (mu w) = true ->
  let bi := bifrostIntegration (analyzer w) in
  let packagePath := packageDirectory fs (packagePaths bi) packageName in
  default false (loadedPackages bi !! packageName) = false ->
  packagePath <> EmptyString ->
  fs_files fs !! filepath_Join [packagePath; "src"; "main.crl"] = Some text ->
  Errors L text = [] ->
  exists w', LoadPackage L fs packageName w = Blocks w'.
Proof.
  intros Hheld bi packagePath Hnew Hdir Hfile Hparse. subst bi packagePath.
  destruct (findPackageIn_spec (packagePaths (bifrostIntegration (analyzer w))) packageName w)
    as (w1 & Hfind & Ha & Hmu).
  unfold LoadPackage, findPackage, mbind, Host_bind, getAnalyzer. cbn beta.
  rewrite Hnew, Hfind.
  destruct (String.eqb_spec
              (packageDirectory fs (packagePaths (bifrostIntegration (analyzer w)))
                 packageName) "") as [Hempty|_]; [done |].
  unfold osStat, osReadFile, logCall, parseAndEvaluate, evalInEnvironment, modifyAnalyzer,
    RefreshDynamicData, withLock, Lock, mbind, Host_bind, mret, Host_ret.
  cbn beta iota.
  destruct (decide (filepath_Join
                      [packageDirectory fs (packagePaths (bifrostIntegration (analyzer w)))
                         packageName; "src"; "main.crl"] ∈ fs_dirs fs));
    rewrite !Hfile; cbn beta iota; rewrite Hparse; simpl; rewrite Hmu, Hheld; simpl;
    by eexists.
Qed.

(** A loop whose bodies keep to [heldSpec] waits for ever when one of its
    elements does, whatever the elements before it do. *)
Lemma forEach_blocks {A : Type} (xs : list A) (body : A -> Host unit) (x : A) (a : Analyzer) :
  x ∈ xs ->
  (forall y, heldSpec (body y) (fun _ => True)) ->
  (forall w, writer (mu w) = true -> analyzer w = a -> exists w', body x w = Blocks w') ->
  forall w, writer (mu w) = true -> analyzer w = a ->
    exists w', forEach xs body w = Blocks w'.
Proof.
  intros Hin Hbody Hblocks. induction xs as [|y rest IH]; intros w Hheld Ha.
  - by apply elem_of_nil in Hin.
  - simpl. unfold mbind, Host_bind.
    pose proof (Hbody y w Hheld) as Hy.
    destruct (body y w) as [[] w1|w1] eqn:Hrun; [| by eexists].
    destruct Hy as (_ & Ha1 & Hmu1).
    apply elem_of_cons in Hin as [->|Hin].
    + destruct (Hblocks w Hheld Ha) as (w' & Hw'). congruence.
    + apply IH; [exact Hin | by rewrite Hmu1 | congruence].
Qed.

(** An import of a package that is not yet marked as loaded and whose main
    file [src/main.crl] has no parse errors makes [AutoLoadImports] wait for
    ever when its caller holds the write lock, whatever the other imports
    of the document are. *)
Lemma AutoLoadImports_blocks doc key importSym text w :
  let bi := bifrostIntegration (analyzer w) in
  let packageName := default EmptyString (head (Split (imp_Path importSym) "/"%char)) in
  let packagePath := packageDirectory fs (packagePaths bi) packageName in
  writer (mu w) = true ->
  Imports (Symbols doc) !! key = Some importSym ->
  imp_Path importSym <> EmptyString ->
  HasPrefix (imp_Path importSym) "./" = false ->
  HasPrefix (imp_Path importSym) "../" = false ->
  default false (loadedPackages bi !! packageName) = false ->
  packagePath <> EmptyString ->
  fs_files fs !! filepath_Join [packagePath; "src"; "main.crl"] = Some text ->
  Errors L text = [] ->
  exists w', AutoLoadImports L fs doc w = Blocks w'.
Proof.
  intros bi packageName packagePath Hheld Himport Hpath Hdot Hdots Hnew Hdir Hfile Hparse.
  unfold AutoLoadImports.
  apply forEach_blocks with (x := (key, importSym)) (a := analyzer w);
    [by apply elem_of_map_to_list | intros entry; held | | exact Hheld | reflexivity].
  intros w' Hheld' Ha. cbv beta zeta. cbn [snd].
  destruct (String.eqb_spec (imp_Path importSym) "") as [Hempty|_]; [done |].
  unfold mbind, Host_bind, LoadPackageFromImport. rewrite Hdot, Hdots. cbn [orb].
  fold packageName.
  destruct (LoadPackage_blocks packageName text w' Hheld') as (w'' & ->);
    [by rewrite Ha | by rewrite Ha | by rewrite Ha | exact Hparse | by eexists].
Qed.

(** C9 on the code: [UpdateDocument] calls [AutoLoadImports] while it holds
    the analyzer's write lock, and [LoadPackage] ends in
    [Analyzer.RefreshDynamicData], which takes the same lock.  For every
    update of a document with an import of a package that is not yet marked
    as loaded, has a directory in a search path and a main file
    [src/main.crl] without parse errors, the update stores the record and
    then waits for ever with the write lock held, so that it never returns,
    and no later [GetDocument] returns a record either. *)
Theorem C9_update_blocks_when_import_loads (w : World) (uri content : string)
    (program : option Program) (key : string) (importSym : ImportSymbol) (text : string) :
  let tree := match program with Some p => p | None => ParseProgram L content end in
  let bi := bifrostIntegration (analyzer w) in
  let packageName := default EmptyString (head (Split (imp_Path importSym) "/"%char)) in
  let packagePath := packageDirectory fs (packagePaths bi) packageName in
  mu w = unlocked ->
  Imports (buildSymbolTable (analyzer w) tree) !! key = Some importSym ->
  imp_Path importSym <> EmptyString ->
  HasPrefix (imp_Path importSym) "./" = false ->
  HasPrefix (imp_Path importSym) "../" = false ->
  default false (loadedPackages bi !! packageName) = false ->
  packagePath <> EmptyString ->
  fs_files fs !! filepath_Join [packagePath; "src"; "main.crl"] = Some text ->
  Errors L text = [] ->
  exists blocked,
    UpdateDocument L fs uri content program w = Blocks blocked /\
    writer (mu blocked) = true /\
    documents (analyzer blocked) !! uri = Some (updatedRecord L uri content program w) /\
    forall uri', GetDocument uri' blocked = Blocks blocked.
Proof.
  intros tree bi packageName packagePath Hmu Himport Hpath Hdot Hdots Hnew Hdir Hfile Hparse.
  pose proof (UpdateDocument_outcome uri content program w Hmu) as Hout.
  cbv zeta in Hout.
  assert (exists blocked, UpdateDocument L fs uri content program w = Blocks blocked)
    as (blocked & Hblocked).
  { unfold UpdateDocument, withLock, mbind, Host_bind, Lock, getAnalyzer, storeDocument,
      modifyAnalyzer.
    cbn beta iota zeta. rewrite Hmu. simpl.
    match goal with
    | |- context [AutoLoadImports L fs ?doc ?w1] =>
        destruct (AutoLoadImports_blocks doc key importSym text w1) as (blocked & ->);
          [reflexivity | exact Himport | exact Hpath | exact Hdot | exact Hdots
          | exact Hnew | exact Hdir | exact Hfile | exact Hparse |]
    end.
    by exists blocked. }
  rewrite Hblocked in Hout. destruct Hout as [Hdocs Hheld].
  exists blocked. split; [exact Hblocked | split; [exact Hheld | split]].
  - rewrite Hdocs. apply lookup_insert_eq.
  - intros uri'. unfold GetDocument, withRLock, mbind, Host_bind, RLock.
    by rewrite Hheld.
Qed.

End StoreFacts.

Lemma C9_update_blocks_when_import_loads_witness :
  exists blocked,
    UpdateDocument noLanguage fooFileSystem "file:///t.crl" importText (Some importProgram)
        freshWorld
      = Blocks blocked /\
    writer (mu blocked) = true /\
    documents (analyzer blocked) !! "file:///t.crl"
      = Some (updatedRecord noLanguage "file:///t.crl" importText (Some importProgram)
                freshWorld) /\
    forall uri', GetDocument uri' blocked = Blocks blocked.
Proof.
  apply (C9_update_blocks_when_import_loads noLanguage fooFileSystem freshWorld
           "file:///t.crl" importText (Some importProgram) "foo"
           (MkImportSymbol "foo" astNodeToRange "foo" "" "") fooText).
  - reflexivity.
  - vm_compute. reflexivity.
  - discriminate.
  - reflexivity.
  - reflexivity.
  - reflexivity.
  - vm_compute. discriminate.
  - vm_compute. reflexivity.
  - reflexivity.
Defined.

(* ===================================================================== *)
(** ** Built-in module names in the package loader (C5) *)
(* ===================================================================== *)

Section PackageFacts.

Variable L : Language.
Variable fs : FileSystem.

Lemma findPackageIn_absent searchPaths packageName w :
  (forall searchPath, searchPath ∈ searchPaths ->
     filepath_Join [searchPath; packageName] ∉ fs_dirs fs) ->
  findPackageIn fs searchPaths packageName w
    = Returns EmptyString
        (MkWorld (analyzer w) (mu w) (fsLog w ++ probesFor searchPaths packageName)
           (warnings w)).
Proof.
  revert w. induction searchPaths as [|searchPath rest IH]; intros w Habsent.
  - simpl. unfold mret, Host_ret. rewrite app_nil_r. by destruct w.
  - simpl. unfold osStat, logCall, mbind, Host_bind, mret, Host_ret. simpl.
    assert (filepath_Join [searchPath; packageName] ∉ fs_dirs fs) as Hhere
      by (apply Habsent; left).
    destruct (decide (filepath_Join [searchPath; packageName] ∈ fs_dirs fs)); [done |].
    destruct (fs_files fs !! filepath_Join [searchPath; packageName]);
      (rewrite IH by (intros sp Hsp; apply Habsent; by right));
      simpl; by rewrite <- app_assoc.
Qed.

(** Loading a package that is not marked as loaded and has no directory in
    any search path probes every search path and fails. *)
Lemma LoadPackage_absent packageName w :
  default false (loadedPackages (bifrostIntegration (analyzer w)) !! packageName) = false ->
  (forall searchPath, searchPath ∈ packagePaths (bifrostIntegration (analyzer w)) ->
     filepath_Join [searchPath; packageName] ∉ fs_dirs fs) ->
  LoadPackage L fs packageName w
    = Returns (Some (PackageNotFound packageName))
        (MkWorld (analyzer w) (mu w)
           (fsLog w ++ probesFor (packagePaths (bifrostIntegration (analyzer w))) packageName)
           (warnings w)).
Proof.
  intros Hnew Habsent. unfold LoadPackage, findPackage.
  unfold mbind, Host_bind, getAnalyzer. rewrite Hnew.
  rewrite findPackageIn_absent by exact Habsent. reflexivity.
Qed.

(** C5 on the code: [LoadPackage] has no case for the built-in module
    names.  For each of "file", "os", "time" and "http", when the name is not
    yet marked as loaded and no search path has a directory of that name,
    loading it (directly, or through an import path whose first segment is
    the name) probes the filesystem once per search path and returns the
    error "package not found". *)
Theorem C5_builtin_module_not_recognised (w : World) (name importPath : string) :
  name ∈ builtinModules ->
  default false (loadedPackages (bifrostIntegration (analyzer w)) !! name) = false ->
  (forall searchPath, searchPath ∈ packagePaths (bifrostIntegration (analyzer w)) ->
     filepath_Join [searchPath; name] ∉ fs_dirs fs) ->
  HasPrefix importPath "./" || HasPrefix importPath "../" = false ->
  head (Split importPath "/"%char) = Some name ->
  let failed :=
    Returns (Some (PackageNotFound name))
      (MkWorld (analyzer w) (mu w)
         (fsLog w ++ probesFor (packagePaths (bifrostIntegration (analyzer w))) name)
         (warnings w)) in
  LoadPackage L fs name w = failed /\
  LoadPackageFromImport L fs importPath w = failed /\
  errorText (PackageNotFound name) = "package not found: " +:+ name.
Proof.
  intros _ Hnew Habsent Hrelative Hsegment. simpl.
  split; [by apply LoadPackage_absent | split; [| reflexivity]].
  unfold LoadPackageFromImport. rewrite Hrelative, Hsegment. simpl.
  by apply LoadPackage_absent.
Qed.

End PackageFacts.

Lemma C5_builtin_module_not_recognised_witness :
  LoadPackage noLanguage emptyFileSystem "os" freshWorld
    = Returns (Some (PackageNotFound "os"))
        (MkWorld freshAnalyzer unlocked
           [Stat "/work/carrion_modules/os"; Stat "/home/u/.carrion/packages/os";
            Stat "/usr/local/share/carrion/lib/os"] [])
  /\ LoadPackageFromImport noLanguage emptyFileSystem "os" freshWorld
     = Returns (Some (PackageNotFound "os"))
         (MkWorld freshAnalyzer unlocked
            [Stat "/work/carrion_modules/os"; Stat "/home/u/.carrion/packages/os";
             Stat "/usr/local/share/carrion/lib/os"] [])
  /\ errorText (PackageNotFound "os") = "package not found: os".
Proof.
  apply (C5_builtin_module_not_recognised noLanguage emptyFileSystem freshWorld "os" "os").
  - unfold builtinModules. apply list_elem_of_further, list_elem_of_here.
  - reflexivity.
  - intros searchPath _. simpl. apply not_elem_of_empty.
  - reflexivity.
  - reflexivity.
Defined.

(* ===================================================================== *)
(** ** The order of hash pairs in the formatted text (C4) *)
(* ===================================================================== *)

Lemma identityOrder_permutation (A : Type) (l : list A) : Permutation (identityOrder A l) l.
Proof. reflexivity. Qed.

Lemma reverseOrder_permutation (A : Type) (l : list A) : Permutation (reverseOrder A l) l.
Proof. unfold reverseOrder. symmetry. apply Permutation_rev. Qed.

(** C4 on the code: the text that the formatter produces for a hash
    literal depends on the order in which the [range] over the literal's
    pairs visits them.  Let the parser return the tree of
    [x = {"a": 1, "b": 2}] for that text, already in canonical layout.  Under
    one order of the range the formatter returns the text itself; under the
    other it returns the text with the pairs swapped, so formatting a
    formatted text can change it.  Both orders are rearrangements of the
    pairs, as Go allows. *)
Theorem C4_hash_pairs_order_changes_text (L : Language) :
  ParseProgram L hashText = hashProgram ->
  Errors L hashText = [] ->
  let whole := protocol.MkRange (protocol.MkPosition 0 0) (protocol.MkPosition 1 0) in
  FormatDocument identityOrder fourSpaces L hashText = inr [protocol.MkTextEdit whole hashText]
  /\ FormatDocument reverseOrder fourSpaces L hashText
     = inr [protocol.MkTextEdit whole hashTextSwapped]
  /\ hashTextSwapped <> hashText
  /\ (forall (A : Type) (l : list A), Permutation (identityOrder A l) l)
  /\ (forall (A : Type) (l : list A), Permutation (reverseOrder A l) l).
Proof.
  intros Hparse Herrors whole.
  split; [| split; [| split; [discriminate |]]].
  - unfold FormatDocument. by rewrite Hparse, Herrors.
  - unfold FormatDocument. by rewrite Hparse, Herrors.
  - split; [apply identityOrder_permutation | apply reverseOrder_permutation].
Qed.

Lemma C4_hash_pairs_order_changes_text_witness :
  FormatDocument reverseOrder fourSpaces hashLanguage hashText
    = inr [protocol.MkTextEdit
             (protocol.MkRange (protocol.MkPosition 0 0) (protocol.MkPosition 1 0))
             hashTextSwapped]
  /\ hashTextSwapped <> hashText.
Proof.
  destruct (C4_hash_pairs_order_changes_text hashLanguage) as (_ & Hswapped & Hdiffer & _).
  - reflexivity.
  - reflexivity.
  - split; [exact Hswapped | exact Hdiffer].
Defined.

(* ===================================================================== *)
(** ** Completion labels (C2) *)
(* ===================================================================== *)

Lemma NoDup_keysOf {V : Type} (table : gmap string V) : NoDup (keysOf table).
Proof. apply NoDup_fst_map_to_list. Qed.

Lemma NoDup_map_filter {A B : Type} (g : A -> B) (p : A -> bool) (l : list A) :
  NoDup (map g l) -> NoDup (map g (List.filter p l)).
Proof.
  induction l as [|x rest IH]; simpl; [done |].
  intros Hnodup. apply NoDup_cons in Hnodup as [Hx Hrest].
  destruct (p x); simpl; [| by apply IH].
  apply NoDup_cons. split; [| by apply IH].
  intros Hin. apply Hx.
  apply list_elem_of_fmap in Hin as (y & -> & Hy).
  apply list_elem_of_fmap. exists y. split; [done |].
  apply list_elem_of_In. apply list_elem_of_In in Hy.
  by apply List.filter_In in Hy as [Hy _].
Qed.

Lemma labels_map_fst {V : Type} (item : string * V -> protocol.CompletionItem)
    (entries : list (string * V)) :
  (forall entry, protocol.Label (item entry) = fst entry) ->
  labels (map item entries) = map fst entries.
Proof.
  intros Hlabel. unfold labels. rewrite List.map_map.
  apply List.map_ext. exact Hlabel.
Qed.

Lemma labels_catalogSpellItems grimoire :
  labels (catalogSpellItems grimoire) = catalogMethodNames grimoire.
Proof.
  destruct grimoire as [g|]; [| reflexivity].
  apply labels_map_fst. by intros [spellName spell].
Qed.

Lemma labels_documentSpellItems grimoire :
  labels (documentSpellItems grimoire) = documentMethodNames grimoire.
Proof.
  destruct grimoire as [g|]; [| reflexivity].
  apply labels_map_fst. by intros [spellName spell].
Qed.

Lemma NoDup_catalogMethodNames grimoire : NoDup (catalogMethodNames grimoire).
Proof. destruct grimoire; [apply NoDup_keysOf | constructor]. Qed.

Lemma NoDup_documentMethodNames grimoire : NoDup (documentMethodNames grimoire).
Proof. destruct grimoire; [apply NoDup_keysOf | constructor]. Qed.

Lemma NoDup_labels_matching {V : Type} (item : string * V -> protocol.CompletionItem)
    (matchToken : string) (table : gmap string V) :
  (forall entry, protocol.Label (item entry) = fst entry) ->
  NoDup (labels (map item (matching matchToken table))).
Proof.
  intros Hlabel. rewrite labels_map_fst by exact Hlabel.
  unfold matching. apply NoDup_map_filter, NoDup_fst_map_to_list.
Qed.

Lemma NoDup_keywords : NoDup keywords.
Proof. apply (bool_decide_unpack _). vm_compute. exact I. Qed.

Lemma NoDup_labels_yieldKeywords matchToken : NoDup (labels (yieldKeywords matchToken)).
Proof.
  unfold yieldKeywords, labels. rewrite List.map_map.
  assert (forall keyword, protocol.Label (keywordItem keyword) = keyword) as Hlabel.
  { intros keyword. unfold keywordItem. by destruct (Contains _ _). }
  erewrite List.map_ext by exact Hlabel. rewrite List.map_id.
  rewrite <- (List.map_id (List.filter _ keywords)).
  apply NoDup_map_filter. rewrite List.map_id. apply NoDup_keywords.
Qed.

Lemma labels_concat (yields : list (list protocol.CompletionItem)) :
  labels (concat yields) = concat (map labels yields).
Proof.
  induction yields as [|y rest IH]; [reflexivity |].
  simpl. unfold labels in *. by rewrite List.map_app, IH.
Qed.

Lemma NoDup_concat_iff (lists : list (list string)) :
  Forall (fun l => NoDup l) lists ->
  NoDup (concat lists) <-> pairwiseDisjoint lists.
Proof.
  induction 1 as [|l rest Hl _ IH]; simpl.
  - split; [done | intros _; constructor].
  - rewrite NoDup_app, IH. split.
    + intros (_ & Hdisjoint & Hrest). by split.
    + intros [Hdisjoint Hrest]. by repeat split.
Qed.

Lemma getMethodCompletions_concat a doc prefix :
  getMethodCompletions a doc prefix = concat (memberYields a doc prefix).
Proof.
  unfold getMethodCompletions, memberYields. simpl.
  destruct (Variables (Symbols doc) !! objectBeforeDot prefix); simpl;
    by rewrite ?app_nil_r.
Qed.

Lemma getGeneralCompletions_concat a doc prefix :
  getGeneralCompletions a doc prefix = concat (generalYields a doc prefix).
Proof. unfold getGeneralCompletions, generalYields. simpl. by rewrite app_nil_r. Qed.

Lemma memberYields_NoDup a doc prefix :
  Forall (fun l => NoDup l) (map labels (memberYields a doc prefix)).
Proof.
  unfold memberYields. simpl. constructor.
  - unfold yieldCatalogObject. rewrite labels_catalogSpellItems.
    apply NoDup_catalogMethodNames.
  - destruct (Variables (Symbols doc) !! objectBeforeDot prefix) as [variable|]; simpl;
      [| constructor].
    repeat constructor.
    + unfold yieldDocumentGrimoire. rewrite labels_documentSpellItems.
      apply NoDup_documentMethodNames.
    + unfold yieldCatalogType. rewrite labels_catalogSpellItems.
      apply NoDup_catalogMethodNames.
    + unfold yieldPrimitive. destruct (primitiveToGrimoire !! var_Type variable).
      * rewrite labels_catalogSpellItems. apply NoDup_catalogMethodNames.
      * constructor.
Qed.

Lemma generalYields_NoDup a doc prefix :
  Forall (fun l => NoDup l) (map labels (generalYields a doc prefix)).
Proof.
  unfold generalYields. simpl. repeat constructor.
  - apply NoDup_labels_yieldKeywords.
  - apply NoDup_labels_matching. by intros [name builtin].
  - apply NoDup_labels_matching. by intros [name grimoire].
  - apply NoDup_labels_matching. by intros [name grimoire].
  - apply NoDup_labels_matching. by intros [name spell].
  - apply NoDup_labels_matching. by intros [name variable].
Qed.

(** C2, as stated, fails: in the document with the grimoire [Person],
    general completion for the prefix "in" lists the label "init" twice,
    once as a keyword and once as the constructor in the function table. *)
Lemma C2_duplicate_label_counterexample :
  labels (GetCompletions personAnalyzer "file:///t.crl" (protocol.MkPosition 9 2))
    = ["init"; "in"; "init"]
  /\ ~ NoDup (labels (GetCompletions personAnalyzer "file:///t.crl" (protocol.MkPosition 9 2))).
Proof.
  assert (labels (GetCompletions personAnalyzer "file:///t.crl" (protocol.MkPosition 9 2))
            = ["init"; "in"; "init"]) as Heq by (vm_compute; reflexivity).
  split; [exact Heq |]. rewrite Heq. intros Hnodup.
  apply NoDup_cons in Hnodup as [Hnotin _]. apply Hnotin.
  apply list_elem_of_further, list_elem_of_here.
Qed.

(** C2, amended: a completion reply is the concatenation of its yields, in
    the order of the code and with nothing removed: for member completion
    the methods of the catalog class named by the object, of the document
    class of the variable's type, of the catalog class of the variable's
    type, and of the catalog class that the primitive mapping gives; for
    general completion the keywords, the catalog built-ins, the catalog
    classes, and the document's classes, functions and variables.  The
    labels are pairwise distinct within each yield; the labels of the whole
    reply are pairwise distinct exactly when no label occurs in two yields. *)
Theorem C2_labels_distinct_within_yields (a : Analyzer) (doc : Document) (prefix : string) :
  (getMethodCompletions a doc prefix = concat (memberYields a doc prefix) /\
   Forall (fun yield => NoDup (labels yield)) (memberYields a doc prefix) /\
   (NoDup (labels (getMethodCompletions a doc prefix))
      <-> pairwiseDisjoint (map labels (memberYields a doc prefix))))
  /\
  (getGeneralCompletions a doc prefix = concat (generalYields a doc prefix) /\
   Forall (fun yield => NoDup (labels yield)) (generalYields a doc prefix) /\
   (NoDup (labels (getGeneralCompletions a doc prefix))
      <-> pairwiseDisjoint (map labels (generalYields a doc prefix)))).
Proof.
  split.
  - split; [apply getMethodCompletions_concat | split].
    + apply Forall_fmap. apply (memberYields_NoDup a doc prefix).
    + rewrite getMethodCompletions_concat, labels_concat.
      apply NoDup_concat_iff, memberYields_NoDup.
  - split; [apply getGeneralCompletions_concat | split].
    + apply Forall_fmap. apply (generalYields_NoDup a doc prefix).
    + rewrite getGeneralCompletions_concat, labels_concat.
      apply NoDup_concat_iff, generalYields_NoDup.
Qed.

(* ===================================================================== *)
(** ** Constructor calls and member completion (C1) *)
(* ===================================================================== *)










